(** * x402-agent: the wallet wrapper, embedded and verified

    The development follows [index.cjs]: the key normaliser, the
    [maxPayment] policy handed to the x402 client, the balance reader and
    the [get]/[post] convenience wrappers.  JavaScript values are modelled
    as follows.

    - strings are [string], read as the bytes of their UTF-8 encoding;
      [undefined] fields are [None];
    - numbers are IEEE-754 doubles: [NaN], the two infinities, and the
      finite values, each kept as the rational it denotes; [parseInt] and
      the division round to the nearest double, ties to even (the two
      zeros are not told apart);
    - an object with string fields ([USDC_ADDRESSES], [process.env]) is a
      [gmap] of its own fields; a read with a computed key goes through
      [Js.get_property], which finds the members of [Object.prototype]
      when the object has no such field;
    - promises are computations in a small error-and-trace monad [M]: every
      call to an external collaborator (HTTP transport, scheme client, chain
      client) is appended to the trace, and collaborators answer through
      oracles that see the trace so far. *)

From Stdlib Require Import ZArith QArith Qcanon String Ascii List Lia.
From stdpp Require Import base numbers option list strings gmap.

Local Open Scope string_scope.
Local Open Scope Z_scope.

(** ** JavaScript builtins used by the wallet *)

Module Js.

(** JavaScript numbers: IEEE-754 binary64 values.  A finite value is kept
    as the rational it denotes ([Num]); the two zeros are not told apart.
    Values produced by the arithmetic below are always doubles; a literal
    is injected by [of_Z] or given as a rational. *)
Inductive number : Type :=
| NaN
| Inf (negative : bool)
| Num (q : Qc).

Definition of_Z (n : Z) : number := Num (Qc_of_Z n).

(** [ToBoolean] on a number: [0] and [NaN] are falsy. *)
Definition truthy (x : number) : bool :=
  match x with
  | NaN => false
  | Inf _ => true
  | Num q => negb (bool_decide (q = Qc_of_Z 0))
  end.

Definition neg (x : number) : number :=
  match x with
  | NaN => NaN
  | Inf b => Inf (negb b)
  | Num q => Num (- q)%Qc
  end.

(** The integer nearest to [P / D], ties to the even one ([0 <= P],
    [0 < D]). *)
Definition rne_div (P D : Z) : Z :=
  let f := P / D in
  let r := P mod D in
  match 2 * r ?= D with
  | Lt => f
  | Gt => f + 1
  | Eq => if Z.even f then f else f + 1
  end.

(** Rounding [p / d] ([0 <= p], [0 < d]) to binary64, in units of the
    smallest subnormal [2^-1074]: the result is [mantissa * 2^shift] units,
    where the shift leaves 53 significant bits (none below the subnormal
    unit) and the mantissa is rounded to nearest, ties to even. *)
Definition shift (p d : Z) : Z :=
  Z.max 0 (Z.log2 (p * 2 ^ 1074 / d) - 52).

Definition mantissa (p d : Z) : Z :=
  rne_div (p * 2 ^ 1074) (d * 2 ^ shift p d).

Definition round_pos (p d : Z) : number :=
  let units := mantissa p d * 2 ^ shift p d in
  if 2 ^ 2098 <=? units then Inf false
  else Num (Qc_of_Z units / Qc_of_Z (2 ^ 1074))%Qc.

(** The double nearest to a rational (round to nearest, ties to even;
    overflow gives an infinity). *)
Definition round64 (q : Qc) : number :=
  let p := Qnum q in
  let d := Zpos (Qden q) in
  if p <? 0 then neg (round_pos (- p) d) else round_pos p d.

(** [x / y].  The sign of a zero divisor is not tracked (it is taken as
    [+0]); the wallet only ever divides by the literal [10000]. *)
Definition div (x y : number) : number :=
  match x, y with
  | NaN, _ => NaN
  | _, NaN => NaN
  | Inf _, Inf _ => NaN
  | Inf s, Num b => Inf (xorb s (bool_decide (b < Qc_of_Z 0)%Qc))
  | Num _, Inf _ => Num (Qc_of_Z 0)
  | Num a, Num b =>
      if decide (b = Qc_of_Z 0)
      then (if decide (a = Qc_of_Z 0) then NaN
            else Inf (bool_decide (a < Qc_of_Z 0)%Qc))
      else round64 (a / b)%Qc
  end.

(** [x <= y]; every comparison with [NaN] is false. *)
Definition le (x y : number) : bool :=
  match x, y with
  | NaN, _ => false
  | _, NaN => false
  | Inf true, _ => true
  | Inf false, Inf false => true
  | Inf false, _ => false
  | Num _, Inf negative => negb negative
  | Num a, Num b => bool_decide (a ≤ b)%Qc
  end.

(** [a || b] where [a] is a possibly absent string and [b] a string:
    [undefined] and the empty string are falsy. *)
Definition or_str (a : option string) (b : string) : string :=
  match a with
  | Some (String c r) => String c r
  | _ => b
  end.

(** [s.startsWith(p)]. *)
Definition startsWith (s p : string) : bool := String.prefix p s.

Definition byte (c : ascii) : N := N_of_ascii c.

(** The white space [parseInt] skips ([StrWhiteSpaceChar], that is
    [WhiteSpace] and [LineTerminator]), by the length of its encoding:
    TAB, LF, VT, FF, CR and SP; U+00A0; U+1680, U+2000 to U+200A, U+2028,
    U+2029, U+202F, U+205F, U+3000 and U+FEFF. *)
Definition is_white1 (b1 : N) : bool :=
  ((9 <=? b1) && (b1 <=? 13) || (b1 =? 32))%N.

Definition is_white2 (b1 b2 : N) : bool :=
  ((b1 =? 0xC2) && (b2 =? 0xA0))%N.

Definition is_white3 (b1 b2 b3 : N) : bool :=
  ((b1 =? 0xE1) && (b2 =? 0x9A) && (b3 =? 0x80)
   || (b1 =? 0xE2) && (b2 =? 0x80)
      && ((0x80 <=? b3) && (b3 <=? 0x8A)
          || (b3 =? 0xA8) || (b3 =? 0xA9) || (b3 =? 0xAF))
   || (b1 =? 0xE2) && (b2 =? 0x81) && (b3 =? 0x9F)
   || (b1 =? 0xE3) && (b2 =? 0x80) && (b3 =? 0x80)
   || (b1 =? 0xEF) && (b2 =? 0xBB) && (b3 =? 0xBF))%N.

(** Dropping the leading white space. *)
Fixpoint trim_start (s : string) : string :=
  match s with
  | String c1 r1 =>
      if is_white1 (byte c1) then trim_start r1
      else
        match r1 with
        | String c2 r2 =>
            if is_white2 (byte c1) (byte c2) then trim_start r2
            else
              match r2 with
              | String c3 r3 =>
                  if is_white3 (byte c1) (byte c2) (byte c3)
                  then trim_start r3 else s
              | EmptyString => s
              end
        | EmptyString => s
        end
  | EmptyString => s
  end.

Definition digit_val (c : ascii) : option Z :=
  let n := Z.of_N (N_of_ascii c) in
  if (48 <=? n) && (n <=? 57) then Some (n - 48) else None.

(** Value of the longest prefix of decimal digits; [None] when the
    prefix is empty. *)
Fixpoint digits_prefix (s : string) (acc : option Z) : option Z :=
  match s with
  | String c r =>
      match digit_val c with
      | Some d => digits_prefix r (Some (10 * default 0 acc + d))
      | None => acc
      end
  | EmptyString => acc
  end.

(** An optional sign, then the longest run of decimal digits: the
    integer they denote, [None] when there is no digit. *)
Definition signed_digits (s : string) : option Z :=
  let '(sign, s) :=
    match s with
    | String c r =>
        if Ascii.eqb c "-" then (-1, r)
        else if Ascii.eqb c "+" then (1, r)
        else (1, s)
    | EmptyString => (1, s)
    end in
  match digits_prefix s None with
  | Some n => Some (sign * n)
  | None => None
  end.

(** [parseInt(s, 10)]: skip white space, read an optional sign and the
    longest run of decimal digits, and return the double nearest to that
    integer; [NaN] when there is no digit. *)
Definition parseInt (s : string) : number :=
  match signed_digits (trim_start s) with
  | Some n => round64 (Qc_of_Z n)
  | None => NaN
  end.

(** [Array.prototype.filter]: visits the elements in index order and
    pushes those the callback accepts onto a fresh array. *)
Fixpoint Array_filter {A : Type} (f : A → bool) (xs : list A) : list A :=
  match xs with
  | [] => []
  | x :: rest => if f x then x :: Array_filter f rest else Array_filter f rest
  end.

Definition digit_char (d : Z) : ascii := ascii_of_N (Z.to_N (48 + d)).

Fixpoint to_digits (fuel : nat) (n : Z) (acc : string) : string :=
  match fuel with
  | O => acc
  | S fuel' =>
      let acc' := String (digit_char (n mod 10)) acc in
      if n / 10 =? 0 then acc' else to_digits fuel' (n / 10) acc'
  end.

(** [BigInt.prototype.toString()]: decimal digits, most significant
    first, with a leading [-] for negative values. *)
Definition BigInt_toString (n : Z) : string :=
  if n <? 0
  then String "-"%char (to_digits (S (Z.to_nat (Z.log2 (- n)))) (- n) "")
  else to_digits (S (Z.to_nat (Z.log2 n))) n "".

(** [s.padStart(n, '0')]. *)
Fixpoint zeros (n : nat) : string :=
  match n with
  | O => ""
  | S n' => String "0"%char (zeros n')
  end.

Definition padStart0 (s : string) (n : nat) : string :=
  zeros (n - String.length s) ++ s.

(** [s.slice(0, k)] and [s.slice(k)] for [0 <= k]. *)
Fixpoint slice_to (k : nat) (s : string) : string :=
  match k, s with
  | S k', String c r => String c (slice_to k' r)
  | _, _ => ""
  end.

Fixpoint slice_from (k : nat) (s : string) : string :=
  match k, s with
  | S k', String c r => slice_from k' r
  | _, _ => s
  end.

(** [s.replace(/(0+)$/, '')]: drop the trailing zeros. *)
Fixpoint strip_trailing_zeros (s : string) : string :=
  match s with
  | EmptyString => ""
  | String c r =>
      match strip_trailing_zeros r with
      | EmptyString => if Ascii.eqb c "0" then "" else String c ""
      | r' => String c r'
      end
  end.

(** ASCII lower-casing, as the [Headers] class applies to header names. *)
Definition lower_char (c : ascii) : ascii :=
  let n := N_of_ascii c in
  if ((65 <=? n) && (n <=? 90))%N then ascii_of_N (n + 32) else c.

Fixpoint toLowerCase (s : string) : string :=
  match s with
  | EmptyString => ""
  | String c r => String (lower_char c) (toLowerCase r)
  end.

(** The value of a property read [obj[k]] on an object whose own fields
    are strings: the field, or the member of [Object.prototype] that the
    name inherits (a function, or the prototype itself for [__proto__]). *)
Inductive value : Type :=
| Str (s : string)
| Builtin (member : string).

Definition prototype_members : list string :=
  ["constructor"; "hasOwnProperty"; "isPrototypeOf"; "propertyIsEnumerable";
   "toLocaleString"; "toString"; "valueOf"; "__proto__";
   "__defineGetter__"; "__defineSetter__"; "__lookupGetter__";
   "__lookupSetter__"].

(** [obj[k]]: the own field, else the inherited member, else
    [undefined]. *)
Definition get_property (obj : gmap string string) (k : string) : option value :=
  match obj !! k with
  | Some s => Some (Str s)
  | None => if bool_decide (k ∈ prototype_members) then Some (Builtin k) else None
  end.

End Js.

(** ** Data model *)

(** One offer of a server's 402 response.  The amount is carried as a
    string, in [maxAmountRequired] (protocol version 1) or [amount]
    (version 2); either may be absent. *)
Record PaymentRequirement : Type := {
  scheme : string;
  req_network : string;
  maxAmountRequired : option string;
  amount : option string;
  asset : string;
  payTo : string;
}.

(** A requirement-filtering policy of the x402 client:
    [(version, accepts) => accepts']. *)
Definition Policy : Type := Z → list PaymentRequirement → list PaymentRequirement.

(** The registration [{ x402Version, network, client }] of a scheme client. *)
Record SchemeRegistration : Type := {
  x402Version : Z;
  network_pattern : string;
  scheme_signer : string;  (* address of the signing account *)
}.

(** The argument of [x402Client.fromConfig]. *)
Record ClientConfig : Type := {
  schemes : list SchemeRegistration;
  policies : option (list Policy);
}.

Inductive Chain : Type := base | baseSepolia.

Record PublicClient : Type := {
  chain : Chain;
  rpcUrl : option string;
}.

Record Options : Type := {
  opt_network : option string;
  opt_rpcUrl : option string;
  opt_maxPayment : option Js.number;
}.

Definition no_options : Options :=
  {| opt_network := None; opt_rpcUrl := None; opt_maxPayment := None |}.

Record Account : Type := { acc_address : string }.

Record Wallet : Type := {
  address : string;
  network : string;
  client : ClientConfig;
  publicClient : PublicClient;
}.

Inductive Error : Type :=
| UnknownUsdcAddress (network : string)   (* "Unknown USDC address for network ..." *)
| EnvNotSet (envVar : string)             (* "Environment variable ... not set" *)
| PolicyRejection                         (* no requirement survived the policies *)
| TypeError (msg : string)                (* raised by the language itself *)
| CollaboratorError (msg : string).       (* raised by an external collaborator *)

Inductive Result (A : Type) : Type :=
| Ok (a : A)
| Err (e : Error).
Arguments Ok {A} a.
Arguments Err {A} e.

(** ** createWallet *)

(** [USDC_ADDRESSES]: the fields of the object literal. *)
Definition USDC_ADDRESSES : gmap string string :=
  <["eip155:8453" := "0x833589fCD6eDb6E08f4c7C32D4f71b54bdA02913"]>
  (<["eip155:84532" := "0x036CbD53842c5426634e7929541eC2318f3dCF7e"]> ∅).

(** [privateKey.startsWith('0x') ? privateKey : `0x${privateKey}`]. *)
Definition normalizeKey (privateKey : string) : string :=
  if Js.startsWith privateKey "0x" then privateKey else "0x" ++ privateKey.

(** [a.maxAmountRequired || a.amount || '0']. *)
Definition amountSource (a : PaymentRequirement) : string :=
  Js.or_str (maxAmountRequired a) (Js.or_str (amount a) "0").

(** [parseInt(a.maxAmountRequired || a.amount || '0', 10) / 10000]. *)
Definition amountCents (a : PaymentRequirement) : Js.number :=
  Js.div (Js.parseInt (amountSource a)) (Js.of_Z 10000).

(** The callback of the filter: [amountCents <= maxPayment]. *)
Definition withinBudget (maxPayment : Js.number) (a : PaymentRequirement) : bool :=
  Js.le (amountCents a) maxPayment.

(** [(version, accepts) => accepts.filter(a => ...)]. *)
Definition maxPaymentPolicy (maxPayment : Js.number) : Policy :=
  fun _version accepts => Js.Array_filter (withinBudget maxPayment) accepts.

(** [maxPayment ? [policy] : undefined]. *)
Definition configuredPolicies (maxPayment : Js.number) : option (list Policy) :=
  if Js.truthy maxPayment then Some [maxPaymentPolicy maxPayment] else None.

Section CreateWallet.

(** viem's [privateKeyToAccount]; it throws on a malformed key. *)
Variable privateKeyToAccount : string → Result Account.

(** [createWallet(privateKey, options)]: the destructuring defaults
    ([network = 'eip155:8453'], [maxPayment = 100]) apply to absent
    options only. *)
Definition createWallet (privateKey : string) (options : Options) : Result Wallet :=
  let network := default "eip155:8453" (opt_network options) in
  let maxPayment := default (Js.of_Z 100) (opt_maxPayment options) in
  let normalizedKey := normalizeKey privateKey in
  match privateKeyToAccount normalizedKey with
  | Err e => Err e
  | Ok account =>
      let client :=
        {| schemes := [ {| x402Version := 2; network_pattern := "eip155:*";
                           scheme_signer := acc_address account |} ];
           policies := configuredPolicies maxPayment |} in
      let chain := if String.eqb network "eip155:84532" then baseSepolia else base in
      let publicClient := {| chain := chain; rpcUrl := opt_rpcUrl options |} in
      Ok {| address := acc_address account;
            network := network;
            client := client;
            publicClient := publicClient |}
  end.

(** [createWalletFromEnv(envVar, options)] over [process.env].  A name
    that [process.env] does not hold but [Object.prototype] does passes
    the test [!privateKey] with a value that is not a string, on which
    [createWallet] fails at [privateKey.startsWith]. *)
Definition createWalletFromEnv (env : gmap string string)
    (envVar : option string) (options : Options) : Result Wallet :=
  let envVar := default "X402_PRIVATE_KEY" envVar in
  match Js.get_property env envVar with
  | Some (Js.Str (String c r)) => createWallet (String c r) options
  | Some (Js.Builtin _) =>
      Err (TypeError "privateKey.startsWith is not a function")
  | _ => Err (EnvNotSet envVar)
  end.

End CreateWallet.

(** ** Effects: collaborators, traces and the monad of asynchronous calls *)

Record Request : Type := {
  url : string;
  method : string;
  headers : list (string * string);
  body : option string;
}.

(** A [Response]; its [Headers] object keeps names in lower case. *)
Record Response : Type := {
  status : Z;
  resp_headers : gmap string string;
  text : string;
}.

(** [response.headers.has(name)]: header names match case-insensitively. *)
Definition Headers_has (r : Response) (name : string) : bool :=
  bool_decide (is_Some (resp_headers r !! Js.toLowerCase name)).

(** The argument of [publicClient.readContract] (the ABI is fixed). *)
Record ReadCall : Type := {
  call_address : Js.value;
  functionName : string;
  args : list string;
}.

(** The signed object a scheme client produces for one requirement,
    reduced to the headers it contributes to the retried request. *)
Record PaymentAuthorization : Type := {
  auth_requirement : PaymentRequirement;
  auth_headers : list (string * string);
}.

(** What a computation asked of the outside world, in order. *)
Inductive Event : Type :=
| EvHttp (req : Request)               (* one underlying HTTP request *)
| EvSign (r : PaymentRequirement)      (* one authorization requested *)
| EvRead (c : ReadCall).               (* one chain read call *)

Definition Trace : Type := list Event.

(** The external collaborators.  Each answers as a function of the events
    so far, so a server may change its mind between two requests and the
    chain may change between two reads. *)
Record Collaborators : Type := {
  http_oracle : Trace → Request → Result Response;
  sign_oracle : Trace → PaymentRequirement → Result PaymentAuthorization;
  read_oracle : Trace → PublicClient → ReadCall → Result Z;
  parseRequirements : Response → list PaymentRequirement;
  selectRequirement : list PaymentRequirement → option PaymentRequirement;
}.

Definition M (A : Type) : Type := Trace → Result A * Trace.

Definition ret {A : Type} (a : A) : M A := fun t => (Ok a, t).

Definition throw {A : Type} (e : Error) : M A := fun t => (Err e, t).

Definition bind {A B : Type} (m : M A) (k : A → M B) : M B :=
  fun t =>
    match m t with
    | (Ok a, t') => k a t'
    | (Err e, t') => (Err e, t')
    end.

#[global] Instance M_ret : MRet M := @ret.
#[global] Instance M_bind : MBind M := fun A B k m => bind m k.

(** One call of the global [fetch]. *)
Definition fetch_call (c : Collaborators) (req : Request) : M Response :=
  fun t => (http_oracle c t req, (t ++ [EvHttp req])%list).

(** One authorization request to the scheme client. *)
Definition sign_call (c : Collaborators) (r : PaymentRequirement) : M PaymentAuthorization :=
  fun t => (sign_oracle c t r, (t ++ [EvSign r])%list).

(** One [publicClient.readContract(...)]. *)
Definition readContract (c : Collaborators) (pc : PublicClient) (call : ReadCall) : M Z :=
  fun t => (read_oracle c t pc call, (t ++ [EvRead call])%list).

Definition is_http (e : Event) : bool :=
  match e with EvHttp _ => true | _ => false end.

Definition is_sign (e : Event) : bool :=
  match e with EvSign _ => true | _ => false end.

Definition count_http (t : Trace) : nat := length (List.filter is_http t).
Definition count_sign (t : Trace) : nat := length (List.filter is_sign t).

(** ** The external libraries *)

Module Viem.

(** Modelled from the spec: [formatUnits] is imported from viem and is
    not part of this repository; section 4.4 asks for the raw integer
    scaled by [10^-decimals] as a decimal string.  The definition
    follows viem's: pad the digits to [decimals] places, cut
    [decimals] places from the right, drop trailing zeros of the
    fraction, and print [0] for an empty integer part. *)
Definition formatUnits (value : Z) (decimals : Z) : string :=
  let display := Js.BigInt_toString value in
  let negative := Js.startsWith display "-" in
  let display := if negative then Js.slice_from 1 display else display in
  let decimals := Z.to_nat decimals in
  let display := Js.padStart0 display decimals in
  let integer := Js.slice_to (String.length display - decimals) display in
  let fraction := Js.slice_from (String.length display - decimals) display in
  let fraction := Js.strip_trailing_zeros fraction in
  (if negative then "-" else "")
    ++ Js.or_str (Some integer) "0"
    ++ (match fraction with EmptyString => "" | _ => "." ++ fraction end).

End Viem.

Module X402.

(** Modelled from the spec: the protocol client of [@x402/core] is not
    part of this repository; section 6 gives it an ordered list of
    requirement-filtering policies, applied in order.  No list
    ([undefined]) applies none. *)
Definition applyPolicies (ps : option (list Policy)) (version : Z)
    (accepts : list PaymentRequirement) : list PaymentRequirement :=
  fold_left (fun reqs p => p version reqs) (default [] ps) accepts.

(** [init] of the retry: the original request with the payment headers
    of the authorization attached. *)
Definition withPayment (req : Request) (auth : PaymentAuthorization) : Request :=
  {| url := url req; method := method req;
     headers := (headers req ++ auth_headers auth)%list;
     body := body req |}.

(** Modelled from the spec: [wrapFetchWithPayment] of [@x402/fetch] is
    not part of this repository; this is the state machine of section
    4.3.  Initial: issue the request.  Success (status other than 402):
    return the response.  PaymentRequired: parse the requirements,
    apply the policies; Rejected when none survives, otherwise select
    one and ask the scheme client for an authorization.  Retry: reissue
    the request once with the payment headers and return whatever comes
    back. *)
Definition wrapFetchWithPayment (c : Collaborators) (cfg : ClientConfig)
    (req : Request) : M Response :=
  response ← fetch_call c req;
  if negb (status response =? 402) then mret response
  else
    let accepts := parseRequirements c response in
    let accepted := applyPolicies (policies cfg) 2 accepts in
    match accepted with
    | [] => throw PolicyRejection
    | _ :: _ =>
        match selectRequirement c accepted with
        | None => throw (CollaboratorError "no supported payment requirement")
        | Some selected =>
            auth ← sign_call c selected;
            fetch_call c (withPayment req auth)
        end
    end.

End X402.

(** ** Wallet methods *)

(** JSON values, the range of [JSON.parse]. *)
#[local] Unset Elimination Schemes.
Inductive JSON : Type :=
| JNull
| JBool (b : bool)
| JNumber (x : Js.number)
| JString (s : string)
| JArray (items : list JSON)
| JObject (fields : list (string * JSON)).
#[local] Set Elimination Schemes.

Record BalanceResult : Type := {
  balance : string;
  formatted : string;
  currency : string;
  bal_network : string;
}.

Record HttpResult : Type := {
  res_status : Z;
  data : JSON;
  paid : bool;
}.

(** [{ 'Content-Type': 'application/json', ...headers }]: a spread key
    that is already present overwrites the value in place.  (JavaScript
    lists integer-like keys first; that reordering is not modelled, and no
    lookup depends on it.) *)
Fixpoint set_header (k v : string) (hs : list (string * string)) : list (string * string) :=
  match hs with
  | [] => [(k, v)]
  | (k', v') :: rest =>
      if String.eqb k k' then (k, v) :: rest else (k', v') :: set_header k v rest
  end.

Definition spread_headers (init extra : list (string * string)) : list (string * string) :=
  fold_left (fun hs kv => set_header (fst kv) (snd kv) hs) extra init.

(** The [init] objects of [get] and [post]. *)
Definition get_request (url : string) (headers : list (string * string)) : Request :=
  {| url := url; method := "GET"; headers := headers; body := None |}.

Definition post_request (stringify : JSON → string) (url : string) (body : JSON)
    (headers : list (string * string)) : Request :=
  {| url := url; method := "POST";
     headers := spread_headers [("Content-Type", "application/json")] headers;
     body := Some (stringify body) |}.

Section WalletMethods.

Variable c : Collaborators.

(** The payment-wrapped fetch built by [wrapFetchWithPayment(fetch, client)]. *)
Variable wrapFetchWithPayment : ClientConfig → Request → M Response.

(** [JSON.parse] ([None] when it throws) and [JSON.stringify]. *)
Variable JSON_parse : string → option JSON.
Variable JSON_stringify : JSON → string.

Definition paidFetch (w : Wallet) : Request → M Response :=
  wrapFetchWithPayment (client w).

(** [wallet.getBalance()].  The test [!usdcAddress] stops an undefined
    or empty address; whatever else [USDC_ADDRESSES[network]] evaluates to
    is handed to [readContract] as the contract address. *)
Definition getBalance (w : Wallet) : M BalanceResult :=
  match Js.get_property USDC_ADDRESSES (network w) with
  | None => throw (UnknownUsdcAddress (network w))
  | Some (Js.Str EmptyString) => throw (UnknownUsdcAddress (network w))
  | Some usdcAddress =>
      balance ← readContract c (publicClient w)
        {| call_address := usdcAddress;
           functionName := "balanceOf";
           args := [address w] |};
      decimals ← readContract c (publicClient w)
        {| call_address := usdcAddress;
           functionName := "decimals";
           args := [] |};
      let formatted := Viem.formatUnits balance decimals in
      mret {| balance := Js.BigInt_toString balance;
              formatted := formatted;
              currency := "USDC";
              bal_network := network w |}
  end.

(** [wallet.fetch(url, init)]. *)
Definition wallet_fetch (w : Wallet) (req : Request) : M Response :=
  paidFetch w req.

(** The tail shared by [get] and [post]: read the body as text, try
    [JSON.parse], fall back to the text, and look for the payment
    headers.  A [Response] of the model holds its body, so
    [response.text()] always delivers it; a body stream that breaks while
    it is read is not modelled. *)
Definition toResult (response : Response) : HttpResult :=
  let data := text response in
  let parsed :=
    match JSON_parse data with
    | Some v => v
    | None => JString data
    end in
  {| res_status := status response;
     data := parsed;
     paid := Headers_has response "x-payment-response"
             || Headers_has response "payment-response" |}.

(** [wallet.get(url, headers)]. *)
Definition get (w : Wallet) (url : string) (headers : list (string * string))
    : M HttpResult :=
  response ← paidFetch w (get_request url headers);
  mret (toResult response).

(** [wallet.post(url, body, headers)].  The body is a JSON value, on which
    [JSON.stringify] does not throw. *)
Definition post (w : Wallet) (url : string) (body : JSON)
    (headers : list (string * string)) : M HttpResult :=
  response ← paidFetch w (post_request JSON_stringify url body headers);
  mret (toResult response).

(** [wallet.close()]: nothing to release. *)
Definition close (w : Wallet) : M unit := mret tt.

(** [createPaidFetch(privateKey, options)]: the [fetch] method of a fresh
    wallet, bound to it. *)
Definition createPaidFetch (privateKeyToAccount : string → Result Account)
    (privateKey : string) (options : Options) : Result (Request → M Response) :=
  match createWallet privateKeyToAccount privateKey options with
  | Ok wallet => Ok (wallet_fetch wallet)
  | Err e => Err e
  end.

End WalletMethods.

(** ** The command line ([cli.cjs]) *)

(** One [console.log] (standard output) or [console.error] (standard
    error) call, with the text it prints. *)
Inductive Stream : Type := Stdout | Stderr.

(** How a run of the command line ends: what it printed, in order, and
    the exit status of the process. *)
Record Exit : Type := {
  printed : list (Stream * string);
  exitCode : Z;
}.

Definition nl : string := String (ascii_of_nat 10) "".
Definition dq : string := String (ascii_of_nat 34) "".

(** The usage text printed by [help]. *)
Definition HELP_TEXT : string :=
  "x402-agent â€” Agent wallet for x402 payment protocol"
  ++ nl ++ ""
  ++ nl ++ "Commands:"
  ++ nl ++ "  balance              Check USDC balance"
  ++ nl ++ "  get <url>            Fetch a URL (auto-pay 402)"
  ++ nl ++ "  post <url> <json>    POST to a URL (auto-pay 402)"
  ++ nl ++ "  help                 Show this help"
  ++ nl ++ ""
  ++ nl ++ "Environment:"
  ++ nl ++ "  X402_PRIVATE_KEY     Hex private key (required)"
  ++ nl ++ "  X402_NETWORK         Network ID (default: eip155:8453 = Base mainnet)"
  ++ nl ++ "                       Use eip155:84532 for Base Sepolia testnet"
  ++ nl ++ ""
  ++ nl ++ "Examples:"
  ++ nl ++ "  X402_PRIVATE_KEY=0x... x402-agent balance"
  ++ nl ++ "  X402_PRIVATE_KEY=0x... x402-agent get https://api.example.com/data"
  ++ nl ++ "  X402_PRIVATE_KEY=0x... x402-agent post https://api.example.com/submit '{" ++ dq ++ "key" ++ dq ++ ":" ++ dq ++ "value" ++ dq ++ "}'"
  ++ nl ++ "".

(** The [help] branch, also the [default] of the [switch]. *)
Definition cli_help : Exit :=
  {| printed := [(Stdout, HELP_TEXT)]; exitCode := 0 |}.

(** The exit taken when [X402_PRIVATE_KEY] is missing. *)
Definition cli_missing_key : Exit :=
  {| printed :=
       [(Stderr, "Error: X402_PRIVATE_KEY environment variable required");
        (Stderr, "Set it to your hex private key (with or without 0x prefix)")];
     exitCode := 1 |}.

(** [!s] for a possibly absent string. *)
Definition falsy_str (o : option string) : bool :=
  match o with
  | Some (String _ _) => false
  | _ => true
  end.

(** [command === name], where [command] may be [undefined]. *)
Definition command_is (command : option string) (name : string) : bool :=
  match command with
  | Some s => String.eqb s name
  | None => false
  end.

Section Cli.

Variable privateKeyToAccount : string → Result Account.
Variable c : Collaborators.
Variable wrapFetchWithPayment : ClientConfig → Request → M Response.

(** [JSON.parse], [JSON.stringify(v)] and [JSON.stringify(v, null, 2)]. *)
Variable JSON_parse : string → option JSON.
Variable JSON_stringify : JSON → string.
Variable JSON_stringify_pretty : JSON → string.

(** The [message] of the [SyntaxError] that [JSON.parse] throws on a text,
    of the rejection raised by the x402 client, and of the [TypeError]
    raised by a method call on [null]. *)
Variable syntaxErrorMessage : string → string.
Variable rejectionMessage : string.
Variable typeErrorMessage : string.

(** [error.message]. *)
Definition message (e : Error) : string :=
  match e with
  | UnknownUsdcAddress n => "Unknown USDC address for network " ++ n
  | EnvNotSet v => "Environment variable " ++ v ++ " not set"
  | PolicyRejection => rejectionMessage
  | TypeError msg => msg
  | CollaboratorError msg => msg
  end.

(** [console.error('Error:', error.message); process.exit(1)], after the
    lines printed [before]. *)
Definition cli_error (before : list (Stream * string)) (msg : string) : Exit :=
  let line := "Error: " ++ msg in
  {| printed := (before ++ [(Stderr, line)])%list; exitCode := 1 |}.

(** [typeof result.data === 'string' ? result.data
     : JSON.stringify(result.data, null, 2)]. *)
Definition show_data (v : JSON) : string :=
  match v with
  | JString s => s
  | _ => JSON_stringify_pretty v
  end.

(** What [get] and [post] print once the wallet call has returned. *)
Definition cli_report (before : list (Stream * string))
    (outcome : Result HttpResult * Trace) : Exit * Trace :=
  match outcome with
  | (Ok result, t') =>
      ({| printed :=
            (before
             ++ (if paid result then [(Stderr, "(Payment was made)")] else [])
             ++ [(Stdout, show_data (data result))])%list;
          exitCode := 0 |}, t')
  | (Err e, t') => (cli_error before (message e), t')
  end.

(** [case 'balance']. *)
Definition cli_balance (wallet : option Wallet) : Trace → Exit * Trace :=
  fun t =>
    match wallet with
    | None => (cli_error [] typeErrorMessage, t)
    | Some w =>
        match getBalance c w t with
        | (Ok result, t') =>
            ({| printed :=
                  [(Stdout, "Address: " ++ address w);
                   (Stdout, "Network: " ++ bal_network result);
                   (Stdout, "Balance: " ++ formatted result ++ " " ++ currency result)];
                exitCode := 0 |}, t')
        | (Err e, t') => (cli_error [] (message e), t')
        end
    end.

(** [case 'get']. *)
Definition cli_get (wallet : option Wallet) (args : list string)
    : Trace → Exit * Trace :=
  fun t =>
    let url := args !! 1%nat in
    if falsy_str url
    then ({| printed := [(Stderr, "Usage: x402-agent get <url>")];
             exitCode := 1 |}, t)
    else
      let url := default "" url in
      let before := [(Stderr, "Fetching " ++ url ++ "...")] in
      match wallet with
      | None => (cli_error before typeErrorMessage, t)
      | Some w =>
          cli_report before (get wrapFetchWithPayment JSON_parse w url [] t)
      end.

(** [case 'post']. *)
Definition cli_post (wallet : option Wallet) (args : list string)
    : Trace → Exit * Trace :=
  fun t =>
    let url := args !! 1%nat in
    let body := args !! 2%nat in
    if falsy_str url || falsy_str body
    then ({| printed := [(Stderr, "Usage: x402-agent post <url> <json-body>")];
             exitCode := 1 |}, t)
    else
      let url := default "" url in
      let body := default "" body in
      match JSON_parse body with
      | None => (cli_error [] (syntaxErrorMessage body), t)
      | Some parsed =>
          let before := [(Stderr, "POSTing to " ++ url ++ "...")] in
          match wallet with
          | None => (cli_error before typeErrorMessage, t)
          | Some w =>
              cli_report before
                (post wrapFetchWithPayment JSON_parse JSON_stringify w url parsed [] t)
          end
      end.

(** [main()] with its [catch]: [env] is [process.env], [argv] is
    [process.argv].  The wallet is [null] only when the key is missing,
    which the first test lets through for the command [help] alone. *)
Definition main (env : gmap string string) (argv : list string)
    : Trace → Exit * Trace :=
  fun t =>
    let args := drop 2 argv in
    let command := args !! 0%nat in
    let privateKey := env !! "X402_PRIVATE_KEY" in
    let network := Js.or_str (env !! "X402_NETWORK") "eip155:8453" in
    if falsy_str privateKey && negb (command_is command "help")
    then (cli_missing_key, t)
    else
      let created :=
        if falsy_str privateKey then Ok None
        else
          match createWallet privateKeyToAccount (default "" privateKey)
                  {| opt_network := Some network; opt_rpcUrl := None;
                     opt_maxPayment := None |} with
          | Ok w => Ok (Some w)
          | Err e => Err e
          end in
      match created with
      | Err e =>
          ({| printed := [(Stderr, "Fatal: " ++ message e)]; exitCode := 1 |}, t)
      | Ok wallet =>
          if command_is command "balance" then cli_balance wallet t
          else if command_is command "get" then cli_get wallet args t
          else if command_is command "post" then cli_post wallet args t
          else (cli_help, t)
      end.

End Cli.

(** ** Properties stated by the specification *)

(** The white space of ECMAScript, as code points: the [WhiteSpace] and
    [LineTerminator] productions, with the members of the Unicode
    category Zs spelled out. *)
Definition white_space_code_points : list Z :=
  [0x9; 0xA; 0xB; 0xC; 0xD; 0x20; 0xA0; 0x1680;
   0x2000; 0x2001; 0x2002; 0x2003; 0x2004; 0x2005; 0x2006; 0x2007;
   0x2008; 0x2009; 0x200A; 0x2028; 0x2029; 0x202F; 0x205F; 0x3000;
   0xFEFF].

(** UTF-8 encoding of a code point of the basic multilingual plane. *)
Definition utf8_byte (n : Z) : ascii := ascii_of_N (Z.to_N n).

Definition utf8 (cp : Z) : string :=
  if cp <? 0x80 then String (utf8_byte cp) ""
  else if cp <? 0x800
  then String (utf8_byte (0xC0 + cp / 64))
         (String (utf8_byte (0x80 + cp mod 64)) "")
  else String (utf8_byte (0xE0 + cp / 4096))
         (String (utf8_byte (0x80 + cp / 64 mod 64))
            (String (utf8_byte (0x80 + cp mod 64)) "")).

Definition white_space (w : string) : Prop :=
  ∃ cp, cp ∈ white_space_code_points ∧ w = utf8 cp.

Definition starts_with_white_space (s : string) : bool :=
  existsb (λ cp, String.prefix (utf8 cp) s) white_space_code_points.

(** Decimal digits, and reading a numeral back as the integer it
    denotes. *)
Definition decimal_digit (ch : ascii) : option Z :=
  Z.of_nat <$> String.index 0 (String ch "") "0123456789".

Fixpoint digits_value (s : string) (acc : Z) : option Z :=
  match s with
  | EmptyString => Some acc
  | String ch r =>
      match decimal_digit ch with
      | Some d => digits_value r (10 * acc + d)
      | None => None
      end
  end.

Definition no_leading_digit (s : string) : Prop :=
  match s with
  | String ch _ => decimal_digit ch = None
  | EmptyString => True
  end.

(** "The text, parsed as a base-10 integer, is [n]": leading white space
    is skipped, then come an optional sign and a numeral, which ends where
    the first character that is not a digit stands. *)
Inductive integer_text : string → Z → Prop :=
| integer_text_space (w s : string) (n : Z) :
    white_space w → integer_text s n → integer_text (w ++ s) n
| integer_text_minus (ds rest : string) (n : Z) :
    ds ≠ "" → digits_value ds 0 = Some n → no_leading_digit rest →
    integer_text ("-" ++ ds ++ rest) (- n)
| integer_text_plus (ds rest : string) (n : Z) :
    ds ≠ "" → digits_value ds 0 = Some n → no_leading_digit rest →
    integer_text ("+" ++ ds ++ rest) n
| integer_text_plain (ds rest : string) (n : Z) :
    ds ≠ "" → digits_value ds 0 = Some n → no_leading_digit rest →
    integer_text (ds ++ rest) n.

(** "The amount, taken from [maxAmountRequired], falling back to
    [amount]": a field that is absent or empty is passed over, and when
    both are the amount is the text [0]. *)
Definition absent (field : option string) : Prop :=
  field = None ∨ field = Some "".

Inductive amount_text (a : PaymentRequirement) : string → Prop :=
| amount_text_max (s : string) :
    maxAmountRequired a = Some s → s ≠ "" → amount_text a s
| amount_text_amount (s : string) :
    absent (maxAmountRequired a) → amount a = Some s → s ≠ "" →
    amount_text a s
| amount_text_zero :
    absent (maxAmountRequired a) → absent (amount a) → amount_text a "0".

(** "The amount, parsed as a base-10 integer and divided by 10^4, is at
    most [maxPayment]", in exact arithmetic. *)
Definition costs_at_most (maxPayment : Qc) (a : PaymentRequirement) : Prop :=
  ∃ (s : string) (n : Z),
    amount_text a s ∧ integer_text s n
    ∧ (Qc_of_Z n / Qc_of_Z 10000 ≤ maxPayment)%Qc.

(** The same in the arithmetic of doubles: the integer is rounded to the
    nearest double, and so is its quotient by 10^4; an infinity stays what
    it is, and only the negative one is at most a budget. *)
Definition cents_of (n : Z) : Js.number :=
  match Js.round64 (Qc_of_Z n) with
  | Js.Num units => Js.round64 (units / Qc_of_Z 10000)
  | x => x
  end.

Definition at_most (x : Js.number) (maxPayment : Qc) : Prop :=
  match x with
  | Js.NaN => False
  | Js.Inf negative => negative = true
  | Js.Num q => (q ≤ maxPayment)%Qc
  end.

Definition affordable (maxPayment : Qc) (a : PaymentRequirement) : Prop :=
  ∃ (s : string) (n : Z),
    amount_text a s ∧ integer_text s n ∧ at_most (cents_of n) maxPayment.

(** The non-negative doubles: [k * 2^j] units of [2^-1074] with a
    mantissa [k] of at most 53 bits, below the overflow threshold. *)
Definition representable (r : Qc) : Prop :=
  ∃ k j : Z, 0 ≤ k < 2 ^ 53 ∧ 0 ≤ j ∧ k * 2 ^ j < 2 ^ 2098
             ∧ r = (Qc_of_Z (k * 2 ^ j) / Qc_of_Z (2 ^ 1074))%Qc.

(** "The response carries a payment-confirmation header": the x402
    settlement header under its version 1 or version 2 name. *)
Definition confirms_payment (r : Response) : Prop :=
  is_Some (resp_headers r !! "x-payment-response")
  ∨ is_Some (resp_headers r !! "payment-response").

(** The events one call of the wrapped fetch can add to the trace. *)
Inductive fetch_events (req : Request) : Trace → Prop :=
| fe_single : fetch_events req [EvHttp req]
| fe_signed (r : PaymentRequirement) : fetch_events req [EvHttp req; EvSign r]
| fe_retried (r : PaymentRequirement) (auth : PaymentAuthorization) :
    fetch_events req [EvHttp req; EvSign r; EvHttp (X402.withPayment req auth)].

(** The two reads of a balance query: [balanceOf(owner)] and [decimals()]
    on the token contract at [usdcAddress]. *)
Definition balanceOf_call (usdcAddress owner : string) : ReadCall :=
  {| call_address := Js.Str usdcAddress;
     functionName := "balanceOf";
     args := [owner] |}.

Definition decimals_call (usdcAddress : string) : ReadCall :=
  {| call_address := Js.Str usdcAddress;
     functionName := "decimals";
     args := [] |}.

(** Hexadecimal digits, for "valid hex key". *)
Definition is_hex_digit (ch : ascii) : bool :=
  let n := N_of_ascii ch in
  ((48 <=? n) && (n <=? 57) || (65 <=? n) && (n <=? 70)
   || (97 <=? n) && (n <=? 102))%N.

Fixpoint hex_string (s : string) : bool :=
  match s with
  | EmptyString => true
  | String ch r => is_hex_digit ch && hex_string r
  end.

(** Reading a decimal numeral [-ddd.ddd] back as a rational. *)
Fixpoint split_point (s : string) : string * option string :=
  match s with
  | EmptyString => ("", None)
  | String ch r =>
      if Ascii.eqb ch "." then ("", Some r)
      else let '(i, f) := split_point r in (String ch i, f)
  end.

Definition unsigned_value (s : string) : option Qc :=
  let '(i, f) := split_point s in
  match i with
  | EmptyString => None
  | _ =>
      iv ← digits_value i 0;
      match f with
      | None => Some (Qc_of_Z iv)
      | Some EmptyString => None
      | Some fr =>
          fv ← digits_value fr 0;
          Some (Qc_of_Z iv + Qc_of_Z fv / Qc_of_Z (10 ^ Z.of_nat (String.length fr)))%Qc
      end
  end.

Definition decimal_value (s : string) : option Qc :=
  match s with
  | String ch r =>
      if Ascii.eqb ch "-" then Qcopp <$> unsigned_value r else unsigned_value s
  | EmptyString => None
  end.

(** [headers[k]] on a header object given as its list of entries. *)
Fixpoint header_get (k : string) (hs : list (string * string)) : option string :=
  match hs with
  | [] => None
  | (k', v) :: rest => if String.eqb k k' then Some v else header_get k rest
  end.

Definition is_read (e : Event) : bool :=
  match e with EvRead _ => true | _ => false end.

(** Whether a run wrote anything to standard output. *)
Definition wrote_stdout (e : Exit) : bool :=
  existsb (fun line => match fst line with Stdout => true | Stderr => false end)
    (printed e).

(** Status 0 with something on standard output, or status 1 with
    nothing on it. *)
Definition exit_consistent (e : Exit) : Prop :=
  (exitCode e = 0 ∧ wrote_stdout e = true)
  ∨ (exitCode e = 1 ∧ wrote_stdout e = false).

(** ** Sample data *)

(** The key of [test.cjs]. *)
Definition TEST_KEY : string :=
  "0x0123456789abcdef0123456789abcdef0123456789abcdef0123456789abcdef".

(** A stand-in for viem's key derivation: the address is a fixed string. *)
Definition sample_account (key : string) : Result Account :=
  if (String.length key =? 66)%nat
  then Ok {| acc_address := "0xFCAd0B19bB29D4674531d6f115237E16AfCE377c" |}
  else Err (CollaboratorError "invalid private key").

(** An offer in USDC on Base with the given amount fields. *)
Definition offer (maxAmount amt : option string) : PaymentRequirement :=
  {| scheme := "exact"; req_network := "eip155:8453";
     maxAmountRequired := maxAmount; amount := amt;
     asset := "0x833589fCD6eDb6E08f4c7C32D4f71b54bdA02913";
     payTo := "0x209693Bc6afc0C5328bA36FaF03C514EF312287C" |}.

(** A paywalled server for the examples.  A request carrying an
    [X-PAYMENT] header is served with a settlement header; any other
    request is answered 402, the body being the price in USDC units. *)
Definition has_payment_header (req : Request) : bool :=
  existsb (fun kv => String.eqb (fst kv) "X-PAYMENT") (headers req).

Definition paywall (price : string) (resource : string) : Trace → Request → Result Response :=
  fun _ req =>
    if has_payment_header req
    then Ok {| status := 200;
               resp_headers := {[ "payment-response" := "settled" ]};
               text := resource |}
    else Ok {| status := 402; resp_headers := ∅; text := price |}.

(** A server that never accepts a payment. *)
Definition always_402 (price : string) : Trace → Request → Result Response :=
  fun _ _ => Ok {| status := 402; resp_headers := ∅; text := price |}.

(** A server without a paywall. *)
Definition free_server (resource : string) : Trace → Request → Result Response :=
  fun _ _ => Ok {| status := 200; resp_headers := ∅; text := resource |}.

(** A chain on which the wallet holds 1.2345 USDC. *)
Definition sample_chain : Trace → PublicClient → ReadCall → Result Z :=
  fun _ _ call =>
    if String.eqb (functionName call) "balanceOf" then Ok 1234500
    else if String.eqb (functionName call) "decimals" then Ok 6
    else Err (CollaboratorError "unknown function").

Definition sample_world (server : Trace → Request → Result Response) : Collaborators :=
  {| http_oracle := server;
     sign_oracle := fun _ r =>
       Ok {| auth_requirement := r; auth_headers := [("X-PAYMENT", "signed")] |};
     read_oracle := sample_chain;
     parseRequirements := fun r => [offer (Some (text r)) None];
     selectRequirement := head |}.

(** A fragment of [JSON.parse] for the examples: the three literals. *)
Definition parse_literal (s : string) : option JSON :=
  if String.eqb s "null" then Some JNull
  else if String.eqb s "true" then Some (JBool true)
  else if String.eqb s "false" then Some (JBool false)
  else None.

Definition stringify_literal (v : JSON) : string :=
  match v with
  | JBool true => "true"
  | JBool false => "false"
  | _ => "null"
  end.

Definition wallet_with (opts : Options) : Wallet :=
  match createWallet sample_account TEST_KEY opts with
  | Ok w => w
  | Err _ =>
      {| address := ""; network := "";
         client := {| schemes := []; policies := None |};
         publicClient := {| chain := base; rpcUrl := None |} |}
  end.

Definition budget (cents : Z) : Options :=
  {| opt_network := None; opt_rpcUrl := None;
     opt_maxPayment := Some (Js.of_Z cents) |}.

Definition on_network (n : string) : Options :=
  {| opt_network := Some n; opt_rpcUrl := None; opt_maxPayment := None |}.

(** Chains whose RPC endpoint fails, on the first or on the second read. *)
Definition failing_chain : Trace → PublicClient → ReadCall → Result Z :=
  fun _ _ _ => Err (CollaboratorError "HTTP request failed").

Definition failing_decimals_chain : Trace → PublicClient → ReadCall → Result Z :=
  fun _ _ call =>
    if String.eqb (functionName call) "balanceOf" then Ok 1234500
    else Err (CollaboratorError "HTTP request failed").

Definition world_with_chain (chain : Trace → PublicClient → ReadCall → Result Z)
    : Collaborators :=
  {| http_oracle := free_server "";
     sign_oracle := sign_oracle (sample_world (free_server ""));
     read_oracle := chain;
     parseRequirements := parseRequirements (sample_world (free_server ""));
     selectRequirement := head |}.

(** A process environment holding the test key, and command lines. *)
Definition env_with_key : gmap string string :=
  {[ "X402_PRIVATE_KEY" := TEST_KEY ]}.

Definition argv_of (args : list string) : list string :=
  "node" :: "cli.cjs" :: args.

(** The command line over the sample collaborators. *)
Definition sample_main (server : Trace → Request → Result Response)
    : gmap string string → list string → Trace → Exit * Trace :=
  main sample_account (sample_world server)
    (X402.wrapFetchWithPayment (sample_world server))
    parse_literal stringify_literal stringify_literal
    (fun _ => "Unexpected token") "No payment option within budget"
    "Cannot read properties of null".

(** * Verification *)

(** ** The builtins behave as in JavaScript on small inputs *)

(** Closed numbers are compared by evaluation; two finite values are equal
    when their reduced fractions are. *)
Ltac number_eq :=
  vm_compute; first [reflexivity | f_equal; apply Qc_is_canon; reflexivity].

Example parseInt_plain : Js.parseInt "600000" = Js.of_Z 600000.
Proof. number_eq. Qed.

Example parseInt_prefix : Js.parseInt "  -12abc" = Js.of_Z (-12).
Proof. number_eq. Qed.

Example parseInt_hex_literal : Js.parseInt "0x10" = Js.of_Z 0.
Proof. number_eq. Qed.

Example parseInt_no_digits : Js.parseInt "abc" = Js.NaN.
Proof. number_eq. Qed.

Example parseInt_rounds :
  Js.parseInt "9007199254740993" = Js.of_Z 9007199254740992.
Proof. number_eq. Qed.

Example parseInt_no_break_space :
  Js.parseInt (utf8 0xA0 ++ utf8 0xFEFF ++ utf8 0x2003 ++ "42") = Js.of_Z 42.
Proof. number_eq. Qed.

Example trim_start_sample :
  Js.trim_start (String (ascii_of_nat 9) " 12 ") = "12 ".
Proof. reflexivity. Qed.

Example lookup_listed_network :
  Js.get_property USDC_ADDRESSES "eip155:84532"
  = Some (Js.Str "0x036CbD53842c5426634e7929541eC2318f3dCF7e").
Proof. reflexivity. Qed.

Example lookup_inherited_member :
  Js.get_property USDC_ADDRESSES "constructor" = Some (Js.Builtin "constructor")
  ∧ Js.get_property USDC_ADDRESSES "eip155:1" = None.
Proof. split; reflexivity. Qed.

Example toString_sample : Js.BigInt_toString 1234500 = "1234500".
Proof. reflexivity. Qed.

Example formatUnits_sample : Viem.formatUnits 1234500 6 = "1.2345".
Proof. reflexivity. Qed.

Example formatUnits_small : Viem.formatUnits 42 6 = "0.000042".
Proof. reflexivity. Qed.

Example formatUnits_whole : Viem.formatUnits 5000000 6 = "5".
Proof. reflexivity. Qed.

Example formatUnits_zero : Viem.formatUnits 0 6 = "0".
Proof. reflexivity. Qed.

Example sixty_cents_rejected :
  withinBudget (Js.of_Z 50) (offer (Some "600000") None) = false.
Proof. number_eq. Qed.

Example forty_cents_accepted :
  withinBudget (Js.of_Z 50) (offer (Some "400000") None) = true.
Proof. number_eq. Qed.

(** ** Rounding to binary64 *)

Lemma rne_div_bounds (P D : Z) :
  0 < D → P / D ≤ Js.rne_div P D ≤ P / D + 1.
Proof.
  intros HD. unfold Js.rne_div.
  destruct (2 * (P mod D) ?= D); [destruct (Z.even (P / D))|..]; lia.
Qed.

Lemma rne_div_ge (P D K : Z) : 0 < D → K * D ≤ P → K ≤ Js.rne_div P D.
Proof.
  intros HD HK. pose proof (rne_div_bounds P D HD).
  assert (K ≤ P / D) by (apply Z.div_le_lower_bound; lia). lia.
Qed.

Lemma rne_div_le (P D K : Z) : 0 < D → P ≤ K * D → Js.rne_div P D ≤ K.
Proof.
  intros HD HK. pose proof (Z.div_mod P D ltac:(lia)) as Hdm.
  pose proof (Z.mod_pos_bound P D HD) as Hr.
  unfold Js.rne_div.
  destruct (Z.eq_dec (P mod D) 0) as [E|E].
  - rewrite E. assert ((2 * 0 ?= D) = Lt) as -> by (apply Z.compare_lt_iff; lia).
    nia.
  - assert (P / D < K) by nia.
    destruct (2 * (P mod D) ?= D); [destruct (Z.even (P / D))|..]; lia.
Qed.

Lemma shift_nonneg (p d : Z) : 0 ≤ Js.shift p d.
Proof. unfold Js.shift. lia. Qed.

(** When the shift exceeds [j], the value has more than [j + 53] bits. *)
Lemma shift_above (p d k j : Z) :
  0 ≤ k < 2 ^ 53 → 0 ≤ j → j < Js.shift p d →
  2 ^ (Js.shift p d + 52) ≤ p * 2 ^ 1074 / d
  ∧ k * 2 ^ j < 2 ^ (Js.shift p d + 52).
Proof.
  intros Hk Hj Hjs. unfold Js.shift in *.
  set (F := p * 2 ^ 1074 / d) in *.
  assert (HF : 0 < F).
  { destruct (Z.lt_trichotomy 0 F) as [?|[E|?]]; [done|..].
    - rewrite <- E in Hjs. cbn in Hjs. lia.
    - rewrite Z.log2_nonpos in Hjs by lia. lia. }
  replace (Z.max 0 (Z.log2 F - 52) + 52) with (Z.log2 F) by lia.
  split; [by apply Z.log2_spec|].
  assert (2 ^ j * 2 ^ 53 ≤ 2 ^ Z.log2 F).
  { rewrite <- Z.pow_add_r by lia. apply Z.pow_le_mono_r; lia. }
  assert (0 < 2 ^ j) by (apply Z.pow_pos_nonneg; lia). nia.
Qed.

Lemma units_nonneg (p d : Z) :
  0 ≤ p → 0 < d → 0 ≤ Js.mantissa p d * 2 ^ Js.shift p d.
Proof.
  intros Hp Hd. pose proof (shift_nonneg p d) as Hs.
  assert (0 < 2 ^ Js.shift p d) by (apply Z.pow_pos_nonneg; lia).
  assert (0 ≤ p * 2 ^ 1074) by (apply Z.mul_nonneg_nonneg; lia).
  assert (0 ≤ Js.mantissa p d); [|nia].
  unfold Js.mantissa. apply rne_div_ge; [nia | lia].
Qed.

(** Rounding does not cross a double: one below the value stays below the
    result, one above stays above. *)
Lemma units_lower (p d k j : Z) :
  0 ≤ p → 0 < d → 0 ≤ k < 2 ^ 53 → 0 ≤ j →
  k * 2 ^ j * d ≤ p * 2 ^ 1074 →
  k * 2 ^ j ≤ Js.mantissa p d * 2 ^ Js.shift p d.
Proof.
  intros Hp Hd Hk Hj HR. pose proof (shift_nonneg p d) as Hs.
  assert (H2s : 0 < 2 ^ Js.shift p d) by (apply Z.pow_pos_nonneg; lia).
  destruct (Z.le_gt_cases (Js.shift p d) j) as [Hsj|Hjs].
  - assert (E : 2 ^ j = 2 ^ (j - Js.shift p d) * 2 ^ Js.shift p d).
    { rewrite <- Z.pow_add_r by lia. f_equal. lia. }
    assert (k * 2 ^ (j - Js.shift p d) ≤ Js.mantissa p d); [|nia].
    unfold Js.mantissa. apply rne_div_ge; nia.
  - destruct (shift_above p d k j Hk Hj Hjs) as [HF Hlt].
    rewrite Z.pow_add_r in HF, Hlt by lia.
    assert (2 ^ 52 ≤ Js.mantissa p d); [|nia].
    unfold Js.mantissa. apply rne_div_ge; [nia|].
    pose proof (Z.mul_div_le (p * 2 ^ 1074) d Hd). nia.
Qed.

Lemma units_upper (p d k j : Z) :
  0 ≤ p → 0 < d → 0 ≤ k < 2 ^ 53 → 0 ≤ j →
  p * 2 ^ 1074 ≤ k * 2 ^ j * d →
  Js.mantissa p d * 2 ^ Js.shift p d ≤ k * 2 ^ j.
Proof.
  intros Hp Hd Hk Hj HR. pose proof (shift_nonneg p d) as Hs.
  assert (H2s : 0 < 2 ^ Js.shift p d) by (apply Z.pow_pos_nonneg; lia).
  destruct (Z.le_gt_cases (Js.shift p d) j) as [Hsj|Hjs].
  - assert (E : 2 ^ j = 2 ^ (j - Js.shift p d) * 2 ^ Js.shift p d).
    { rewrite <- Z.pow_add_r by lia. f_equal. lia. }
    assert (Js.mantissa p d ≤ k * 2 ^ (j - Js.shift p d)); [|nia].
    unfold Js.mantissa. apply rne_div_le; nia.
  - destruct (shift_above p d k j Hk Hj Hjs) as [HF Hlt].
    assert (p * 2 ^ 1074 / d ≤ k * 2 ^ j); [|lia].
    apply Z.div_le_upper_bound; lia.
Qed.

(** Rationals as fractions of integers. *)
Lemma Qc_of_Z_pos (d : Z) : 0 < d → (Q2Qc 0 < Qc_of_Z d)%Qc.
Proof. intros H. rewrite <- Z2Qc_inj_0. by apply Z2Qc_inj_lt in H. Qed.

Lemma Qc_of_Z_nonzero (d : Z) : d ≠ 0 → Qc_of_Z d ≠ Q2Qc 0.
Proof. intros H E. rewrite <- Z2Qc_inj_0 in E. by apply Z2Qc_inj in E. Qed.

Lemma Qc_frac_le (a b c d : Z) :
  0 < b → 0 < d →
  (Qc_of_Z a / Qc_of_Z b ≤ Qc_of_Z c / Qc_of_Z d)%Qc ↔ a * d ≤ c * b.
Proof.
  intros Hb Hd.
  rewrite (Qcmult_le_mono_pos_r _ _ (Qc_of_Z b * Qc_of_Z d)%Qc)
    by (apply Qcmult_pos_pos; by apply Qc_of_Z_pos).
  replace (Qc_of_Z a / Qc_of_Z b * (Qc_of_Z b * Qc_of_Z d))%Qc
    with (Qc_of_Z (a * d)).
  2: { rewrite Z2Qc_inj_mul. field. apply Qc_of_Z_nonzero. lia. }
  replace (Qc_of_Z c / Qc_of_Z d * (Qc_of_Z b * Qc_of_Z d))%Qc
    with (Qc_of_Z (c * b)).
  2: { rewrite Z2Qc_inj_mul. field. apply Qc_of_Z_nonzero. lia. }
  symmetry. apply Z2Qc_inj_le.
Qed.

Lemma Qc_frac_le_intro (a b c d : Z) :
  0 < b → 0 < d → a * d ≤ c * b →
  (Qc_of_Z a / Qc_of_Z b ≤ Qc_of_Z c / Qc_of_Z d)%Qc.
Proof. intros Hb Hd. apply (proj2 (Qc_frac_le a b c d Hb Hd)). Qed.

Lemma Qc_frac_le_elim (a b c d : Z) :
  0 < b → 0 < d →
  (Qc_of_Z a / Qc_of_Z b ≤ Qc_of_Z c / Qc_of_Z d)%Qc → a * d ≤ c * b.
Proof. intros Hb Hd. apply (proj1 (Qc_frac_le a b c d Hb Hd)). Qed.

Lemma Qc_frac_1 (a : Z) : (Qc_of_Z a / Qc_of_Z 1)%Qc = Qc_of_Z a.
Proof. rewrite Z2Qc_inj_1. apply Qcdiv_right_id. Qed.

Lemma Qc_frac_le_Z (a b c : Z) :
  0 < b → (Qc_of_Z a / Qc_of_Z b ≤ Qc_of_Z c)%Qc ↔ a ≤ c * b.
Proof.
  intros Hb. rewrite <- (Qc_frac_1 c), Qc_frac_le by lia. lia.
Qed.

Lemma Qc_num_den (q : Qc) :
  q = (Qc_of_Z (Qnum q) / Qc_of_Z (Zpos (Qden q)))%Qc.
Proof.
  apply Qc_is_canon. destruct q as [[p d] Hc]. cbn.
  unfold Qcdiv, Qcmult, Qcinv, Qc_of_Z, Q2Qc. cbn.
  rewrite !Qred_correct. unfold Qeq, Qmult, Qinv, inject_Z. cbn.
  destruct p; cbn; lia.
Qed.

Lemma Qc_frac_eq (a b c d : Z) :
  0 < b → 0 < d → a * d = c * b →
  (Qc_of_Z a / Qc_of_Z b)%Qc = (Qc_of_Z c / Qc_of_Z d)%Qc.
Proof.
  intros Hb Hd E. apply Qcle_antisym; apply Qc_frac_le_intro; lia.
Qed.

Lemma Qc_frac_opp (a b : Z) :
  0 < b → (- (Qc_of_Z a / Qc_of_Z b))%Qc = (Qc_of_Z (- a) / Qc_of_Z b)%Qc.
Proof.
  intros Hb. rewrite Z2Qc_inj_opp. field. apply Qc_of_Z_nonzero. lia.
Qed.

Lemma pow2_pos (n : Z) : 0 ≤ n → 0 < 2 ^ n.
Proof. intros. apply Z.pow_pos_nonneg; lia. Qed.

(** What [round_pos] returns: [+Infinity] or a non-negative number of
    units below the overflow threshold. *)
Lemma round_pos_cases (p d : Z) :
  0 ≤ p → 0 < d →
  Js.round_pos p d = Js.Inf false
  ∨ ∃ X, 0 ≤ X < 2 ^ 2098
         ∧ Js.round_pos p d = Js.Num (Qc_of_Z X / Qc_of_Z (2 ^ 1074))%Qc.
Proof.
  intros Hp Hd. unfold Js.round_pos. cbv zeta.
  pose proof (units_nonneg p d Hp Hd).
  destruct (Z.leb_spec (2 ^ 2098) (Js.mantissa p d * 2 ^ Js.shift p d));
    [by left | right; eexists; split; [|done]; lia].
Qed.

Lemma round_pos_ge (p d k j : Z) :
  0 ≤ p → 0 < d → 0 ≤ k < 2 ^ 53 → 0 ≤ j →
  k * 2 ^ j * d ≤ p * 2 ^ 1074 →
  Js.le (Js.Num (Qc_of_Z (k * 2 ^ j) / Qc_of_Z (2 ^ 1074))%Qc)
        (Js.round_pos p d) = true.
Proof.
  intros Hp Hd Hk Hj HR. unfold Js.round_pos. cbv zeta.
  pose proof (units_lower p d k j Hp Hd Hk Hj HR) as Hlow.
  destruct (2 ^ 2098 <=? Js.mantissa p d * 2 ^ Js.shift p d); [done|].
  cbn [Js.le]. apply bool_decide_eq_true.
  pose proof (pow2_pos 1074 ltac:(lia)).
  apply Qc_frac_le_intro; [done..|]. by apply Z.mul_le_mono_nonneg_r; [lia|].
Qed.

Lemma round_pos_le (p d k j : Z) :
  0 ≤ p → 0 < d → 0 ≤ k < 2 ^ 53 → 0 ≤ j → k * 2 ^ j < 2 ^ 2098 →
  p * 2 ^ 1074 ≤ k * 2 ^ j * d →
  Js.le (Js.round_pos p d)
        (Js.Num (Qc_of_Z (k * 2 ^ j) / Qc_of_Z (2 ^ 1074))%Qc) = true.
Proof.
  intros Hp Hd Hk Hj Hfin HR. unfold Js.round_pos. cbv zeta.
  pose proof (units_upper p d k j Hp Hd Hk Hj HR) as Hup.
  destruct (Z.leb_spec (2 ^ 2098) (Js.mantissa p d * 2 ^ Js.shift p d)); [lia|].
  cbn [Js.le]. apply bool_decide_eq_true.
  pose proof (pow2_pos 1074 ltac:(lia)).
  apply Qc_frac_le_intro; [done..|]. by apply Z.mul_le_mono_nonneg_r; [lia|].
Qed.

(** Rounding is monotone across every double: a double below the value is
    at most the result, a double above the value is at least the result. *)
Lemma round64_ge (r q : Qc) :
  representable r → (r ≤ q)%Qc → Js.le (Js.Num r) (Js.round64 q) = true.
Proof.
  intros (k & j & Hk & Hj & Hfin & ->) Hle.
  pose proof (pow2_pos 1074 ltac:(lia)) as HU.
  pose proof (pow2_pos j Hj) as H2j.
  rewrite (Qc_num_den q) in Hle. apply Qc_frac_le_elim in Hle; [|done..].
  unfold Js.round64. cbv zeta.
  destruct (Z.ltb_spec (Qnum q) 0) as [Hneg|Hpos].
  { assert (0 ≤ k * 2 ^ j * Z.pos (Qden q))
      by (apply Z.mul_nonneg_nonneg; [apply Z.mul_nonneg_nonneg|]; lia).
    assert (Qnum q * 2 ^ 1074 < 0) by (by apply Z.mul_neg_pos).
    lia. }
  apply round_pos_ge; [done..|lia].
Qed.

Lemma round64_le (r q : Qc) :
  representable r → (q ≤ r)%Qc → Js.le (Js.round64 q) (Js.Num r) = true.
Proof.
  intros (k & j & Hk & Hj & Hfin & ->) Hle.
  pose proof (pow2_pos 1074 ltac:(lia)) as HU.
  pose proof (pow2_pos j Hj) as H2j.
  unfold Js.round64. cbv zeta.
  destruct (Z.ltb_spec (Qnum q) 0) as [Hneg|Hpos].
  - destruct (round_pos_cases (- Qnum q) (Z.pos (Qden q))) as [->|(X & HX & ->)];
      [lia | done | done |].
    cbn [Js.neg Js.le]. apply bool_decide_eq_true.
    rewrite Qc_frac_opp by done. apply Qc_frac_le_intro; [done..|].
    assert (0 ≤ k * 2 ^ j * 2 ^ 1074)
      by (apply Z.mul_nonneg_nonneg; [apply Z.mul_nonneg_nonneg|]; lia).
    assert (0 ≤ X * 2 ^ 1074) by (apply Z.mul_nonneg_nonneg; lia).
    lia.
  - rewrite (Qc_num_den q) in Hle. apply Qc_frac_le_elim in Hle; [|done..].
    apply round_pos_le; [done..|lia].
Qed.

Lemma round64_exact (r : Qc) : representable r → Js.round64 r = Js.Num r.
Proof.
  intros Hr.
  pose proof (round64_ge r r Hr ltac:(done)) as H1.
  pose proof (round64_le r r Hr ltac:(done)) as H2.
  destruct (Js.round64 r) as [|[]|x]; try done.
  cbn in H1, H2. apply bool_decide_eq_true in H1, H2.
  f_equal. by apply Qcle_antisym.
Qed.

(** Integers up to [2^53] are doubles, and so are the multiples of
    [2^-14] below [2^39]. *)
Lemma representable_Z (c : Z) : 0 ≤ c ≤ 2 ^ 53 → representable (Qc_of_Z c).
Proof.
  intros Hc. destruct (decide (c = 2 ^ 53)) as [->|Hne].
  - exists 1, 1127. split; [lia|]. split; [lia|]. split; [lia|].
    rewrite <- Qc_frac_1. apply Qc_frac_eq; lia.
  - exists c, 1074. split; [lia|]. split; [lia|]. split; [lia|].
    rewrite <- Qc_frac_1. apply Qc_frac_eq; lia.
Qed.

Lemma representable_fine (k : Z) :
  0 ≤ k < 2 ^ 53 → representable (Qc_of_Z k / Qc_of_Z (2 ^ 14))%Qc.
Proof.
  intros Hk. exists k, 1060. split; [lia|]. split; [lia|]. split; [lia|].
  apply Qc_frac_eq; lia.
Qed.

(** ** Comparisons and the division by [10000] *)

Lemma le_trans (x y z : Js.number) :
  Js.le x y = true → Js.le y z = true → Js.le x z = true.
Proof.
  destruct x as [|[]|a], y as [|[]|b], z as [|[]|c]; cbn; try done.
  rewrite !bool_decide_eq_true. apply Qcle_trans.
Qed.

Lemma le_above (r c : Qc) (y : Js.number) :
  Js.le (Js.Num r) y = true → ¬ (r ≤ c)%Qc → Js.le y (Js.Num c) = false.
Proof.
  destruct y as [|[]|b]; cbn; try done.
  rewrite bool_decide_eq_true, bool_decide_eq_false.
  intros H1 H2 H3. apply H2. by apply Qcle_trans with b.
Qed.

Lemma Qc_div_le_mono (a b : Qc) :
  (a ≤ b)%Qc → (a / Qc_of_Z 10000 ≤ b / Qc_of_Z 10000)%Qc.
Proof. intros H. unfold Qcdiv. by apply Qcmult_le_compat_r. Qed.

Lemma div_10000_ge (r r0 : Qc) (x : Js.number) :
  representable r → (r ≤ r0 / Qc_of_Z 10000)%Qc →
  Js.le (Js.Num r0) x = true →
  Js.le (Js.Num r) (Js.div x (Js.of_Z 10000)) = true.
Proof.
  intros Hr Hle. destruct x as [|[]|a]; cbn [Js.le negb]; try done.
  intros Ha%bool_decide_eq_true. unfold Js.div, Js.of_Z.
  destruct (decide (Qc_of_Z 10000 = Qc_of_Z 0)) as [E|_]; [done|].
  apply round64_ge; [done|]. apply Qcle_trans with (r0 / Qc_of_Z 10000)%Qc; [done|].
  by apply Qc_div_le_mono.
Qed.

Lemma div_10000_le (r r0 : Qc) (x : Js.number) :
  representable r → (r0 / Qc_of_Z 10000 ≤ r)%Qc →
  Js.le x (Js.Num r0) = true →
  Js.le (Js.div x (Js.of_Z 10000)) (Js.Num r) = true.
Proof.
  intros Hr Hle. destruct x as [|[]|a]; cbn [Js.le negb]; try done.
  intros Ha%bool_decide_eq_true. unfold Js.div, Js.of_Z.
  destruct (decide (Qc_of_Z 10000 = Qc_of_Z 0)) as [E|_]; [done|].
  apply round64_le; [done|]. apply Qcle_trans with (r0 / Qc_of_Z 10000)%Qc; [|done].
  by apply Qc_div_le_mono.
Qed.

(** Signs survive the rounding and the division. *)
Lemma representable_0 : representable (Qc_of_Z 0).
Proof. apply representable_Z. lia. Qed.

Lemma cents_nonneg (n : Z) :
  0 ≤ n →
  Js.le (Js.of_Z 0) (Js.div (Js.round64 (Qc_of_Z n)) (Js.of_Z 10000)) = true.
Proof.
  intros Hn. apply (div_10000_ge _ (Qc_of_Z 0)); [apply representable_0 | done |].
  apply round64_ge; [apply representable_0 | by apply (proj1 (Z2Qc_inj_le _ _))].
Qed.

Lemma cents_nonpos (n : Z) :
  n ≤ 0 →
  Js.le (Js.div (Js.round64 (Qc_of_Z n)) (Js.of_Z 10000)) (Js.of_Z 0) = true.
Proof.
  intros Hn. apply (div_10000_le _ (Qc_of_Z 0)); [apply representable_0 | done |].
  apply round64_le; [apply representable_0 | by apply (proj1 (Z2Qc_inj_le _ _))].
Qed.

(** The price test on an integer amount: for a budget of [c] cents,
    [c < 2^39], the quotient by [10000] of the double nearest to [n] is at
    most [c] exactly when [n <= 10000 * c].  (Budgets of [2^39] cents and
    more are too large for the doubles around them to tell [c] from
    [c + 1/10000].) *)
Lemma cents_threshold (n c : Z) :
  0 ≤ c < 2 ^ 39 →
  Js.le (Js.div (Js.round64 (Qc_of_Z n)) (Js.of_Z 10000)) (Js.of_Z c) = true
  ↔ n ≤ 10000 * c.
Proof.
  intros Hc. destruct (Z.lt_ge_cases n 0) as [Hneg|Hn].
  { split; [lia|]. intros _. apply le_trans with (Js.of_Z 0).
    - apply cents_nonpos. lia.
    - cbn. apply bool_decide_eq_true. apply (proj1 (Z2Qc_inj_le _ _)). lia. }
  split.
  - intros Hle. destruct (Z.le_gt_cases n (10000 * c)) as [|Hgt]; [done|].
    exfalso.
    assert (H0 : Js.le (Js.Num (Qc_of_Z (10000 * c + 1)))
                   (Js.round64 (Qc_of_Z n)) = true).
    { apply round64_ge; [apply representable_Z; lia|].
      apply (proj1 (Z2Qc_inj_le _ _)). lia. }
    assert (H1 : Js.le (Js.Num (Qc_of_Z (c * 2 ^ 14 + 1) / Qc_of_Z (2 ^ 14))%Qc)
                   (Js.div (Js.round64 (Qc_of_Z n)) (Js.of_Z 10000)) = true).
    { apply (div_10000_ge _ (Qc_of_Z (10000 * c + 1))); [| |done].
      - apply representable_fine. lia.
      - apply Qc_frac_le_intro; lia. }
    apply (le_above _ (Qc_of_Z c)) in H1.
    + unfold Js.of_Z in *. congruence.
    + rewrite Qc_frac_le_Z by lia. lia.
  - intros Hle.
    apply (div_10000_le _ (Qc_of_Z n)).
    + apply representable_Z. lia.
    + apply (proj2 (Qc_frac_le_Z n 10000 c ltac:(lia))). lia.
    + apply round64_le; [apply representable_Z; lia | apply Qcle_refl].
Qed.

Example round64_integer : Js.round64 (Qc_of_Z 600000) = Js.of_Z 600000.
Proof. apply round64_exact, representable_Z. lia. Qed.

Example round64_tie_to_even :
  Js.round64 (Qc_of_Z (2 ^ 53 + 1)) = Js.of_Z (2 ^ 53)
  ∧ Js.round64 (Qc_of_Z (2 ^ 53 + 3)) = Js.of_Z (2 ^ 53 + 4).
Proof. split; vm_compute; f_equal; apply Qc_is_canon; reflexivity. Qed.

Example round64_large :
  Js.round64 (Qc_of_Z 9007199254740990001) = Js.of_Z 9007199254740989952.
Proof. vm_compute; f_equal; apply Qc_is_canon; reflexivity. Qed.

Example round64_tenth :
  Js.round64 (Qc_of_Z 1 / Qc_of_Z 10)
  = Js.Num (Qc_of_Z 3602879701896397 / Qc_of_Z (2 ^ 55))%Qc.
Proof. vm_compute; f_equal; apply Qc_is_canon; reflexivity. Qed.

Example round64_overflow :
  Js.round64 (Qc_of_Z (2 * 10 ^ 308)) = Js.Inf false
  ∧ Js.round64 (Qc_of_Z (- 2 * 10 ^ 308)) = Js.Inf true.
Proof. split; vm_compute; reflexivity. Qed.

Example rounded_quotient :
  Js.div (Js.round64 (Qc_of_Z 9007199254740990001)) (Js.of_Z 10000)
  = Js.of_Z 900719925474099.
Proof. vm_compute; f_equal; apply Qc_is_canon; reflexivity. Qed.
(** ** Decimal numerals: [toString] and [formatUnits] *)

Lemma digit_val_char (d : Z) : 0 ≤ d ≤ 9 → Js.digit_val (Js.digit_char d) = Some d.
Proof.
  intros H.
  assert (d = 0 ∨ d = 1 ∨ d = 2 ∨ d = 3 ∨ d = 4 ∨ d = 5 ∨ d = 6 ∨ d = 7
          ∨ d = 8 ∨ d = 9) as Hd by lia.
  repeat (destruct Hd as [->|Hd]; [reflexivity|]). by subst.
Qed.

Lemma append_cons (ch : ascii) (s1 s2 : string) :
  String ch s1 ++ s2 = String ch (s1 ++ s2).
Proof. reflexivity. Qed.

Lemma append_nil (s : string) : "" ++ s = s.
Proof. reflexivity. Qed.

Lemma append_assoc (s1 s2 s3 : string) : (s1 ++ s2) ++ s3 = s1 ++ (s2 ++ s3).
Proof.
  induction s1 as [|ch s1 IH]; [done|]. rewrite !append_cons. by rewrite IH.
Qed.

Lemma append_empty_r (s : string) : s ++ "" = s.
Proof. induction s as [|ch s IH]; [done|]. rewrite append_cons. by rewrite IH. Qed.

Lemma length_append (s1 s2 : string) :
  String.length (s1 ++ s2) = (String.length s1 + String.length s2)%nat.
Proof.
  induction s1 as [|ch s1 IH]; [done|]. rewrite append_cons. cbn. by rewrite IH.
Qed.

Lemma decimal_digit_val (ch : ascii) : decimal_digit ch = Js.digit_val ch.
Proof. destruct ch as [[] [] [] [] [] [] [] []]; reflexivity. Qed.

Lemma digits_value_cons (ch : ascii) (r : string) (acc : Z) :
  digits_value (String ch r) acc
  = match Js.digit_val ch with
    | Some d => digits_value r (10 * acc + d)
    | None => None
    end.
Proof. cbn [digits_value]. by rewrite decimal_digit_val. Qed.

Lemma digits_value_app (s1 s2 : string) (acc : Z) :
  digits_value (s1 ++ s2) acc = digits_value s1 acc ≫= digits_value s2.
Proof.
  revert acc. induction s1 as [|ch s1 IH]; intros acc; [done|].
  rewrite append_cons, !digits_value_cons.
  destruct (Js.digit_val ch); [apply IH | done].
Qed.

Lemma digits_value_acc (s : string) (acc : Z) :
  digits_value s acc
  = (λ v, acc * 10 ^ Z.of_nat (String.length s) + v) <$> digits_value s 0.
Proof.
  revert acc. induction s as [|ch s IH]; intros acc.
  - cbn. f_equal. lia.
  - cbn [String.length]. rewrite !digits_value_cons.
    destruct (Js.digit_val ch) as [d|]; [|done].
    rewrite (IH (10 * acc + d)), (IH (10 * 0 + d)).
    destruct (digits_value s 0) as [v|]; [|done]. cbn. f_equal.
    rewrite Nat2Z.inj_succ, Z.pow_succ_r by lia. lia.
Qed.

Lemma mod10_digit (n : Z) : 0 ≤ n mod 10 ≤ 9.
Proof. pose proof (Z.mod_pos_bound n 10). lia. Qed.

Lemma to_digits_S (f : nat) (n : Z) (acc : string) :
  Js.to_digits (S f) n acc
  = if n / 10 =? 0 then String (Js.digit_char (n mod 10)) acc
    else Js.to_digits f (n / 10) (String (Js.digit_char (n mod 10)) acc).
Proof. reflexivity. Qed.

Lemma to_digits_value (f : nat) (n : Z) (acc : string) :
  0 ≤ n < 2 ^ Z.of_nat (S f) →
  ∃ ds, Js.to_digits (S f) n acc = ds ++ acc
        ∧ digits_value ds 0 = Some n ∧ ds ≠ "".
Proof.
  revert n acc. induction f as [|f IH]; intros n acc Hn.
  - assert (n / 10 = 0) as Hq by (apply Z.div_small; cbn in Hn; lia).
    rewrite to_digits_S, Hq. cbn.
    exists (String (Js.digit_char (n mod 10)) ""). split; [done|].
    split; [|done]. rewrite digits_value_cons, digit_val_char by apply mod10_digit.
    cbn [digits_value]. f_equal. rewrite Z.mod_small; cbn in Hn; lia.
  - rewrite to_digits_S. destruct (n / 10 =? 0) eqn:Hq.
    + apply Z.eqb_eq in Hq.
      exists (String (Js.digit_char (n mod 10)) ""). split; [done|].
      split; [|done]. rewrite digits_value_cons, digit_val_char by apply mod10_digit.
      cbn [digits_value]. f_equal. pose proof (Z.div_mod n 10). lia.
    + destruct (IH (n / 10) (String (Js.digit_char (n mod 10)) acc))
        as (ds & Hds & Hv & Hne).
      { split; [apply Z.div_pos; lia|].
        rewrite (Nat2Z.inj_succ (S f)), Z.pow_succ_r in Hn by lia.
        apply Z.div_lt_upper_bound; lia. }
      exists (ds ++ String (Js.digit_char (n mod 10)) "").
      split; [|split].
      * rewrite Hds. by rewrite append_assoc.
      * rewrite digits_value_app, Hv. cbn [mbind option_bind].
        rewrite digits_value_cons, digit_val_char by apply mod10_digit.
        cbn [digits_value]. f_equal. pose proof (Z.div_mod n 10). lia.
      * by destruct ds.
Qed.

Lemma toString_value (n : Z) :
  0 ≤ n →
  digits_value (Js.BigInt_toString n) 0 = Some n ∧ Js.BigInt_toString n ≠ "".
Proof.
  intros Hn. unfold Js.BigInt_toString.
  destruct (n <? 0) eqn:Hneg; [lia|].
  destruct (to_digits_value (Z.to_nat (Z.log2 n)) n "") as (ds & Hds & Hv & Hne).
  { split; [done|]. rewrite Nat2Z.inj_succ, Z2Nat.id by apply Z.log2_nonneg.
    destruct (decide (n = 0)) as [->|]; [done|]. apply Z.log2_spec. lia. }
  rewrite Hds, append_empty_r. done.
Qed.

Lemma zeros_length (k : nat) : String.length (Js.zeros k) = k.
Proof. induction k as [|k IH]; [done|]. cbn. by rewrite IH. Qed.

Lemma digits_value_zeros (k : nat) (acc : Z) :
  digits_value (Js.zeros k) acc = Some (acc * 10 ^ Z.of_nat k).
Proof.
  revert acc. induction k as [|k IH]; intros acc.
  - cbn. f_equal. lia.
  - cbn [Js.zeros]. rewrite digits_value_cons.
    change (Js.digit_val "0") with (Some 0). cbv iota.
    rewrite IH, Nat2Z.inj_succ, Z.pow_succ_r by lia. f_equal. lia.
Qed.

Lemma digits_value_padStart (s : string) (n : nat) :
  digits_value (Js.padStart0 s n) 0 = digits_value s 0.
Proof.
  unfold Js.padStart0. rewrite digits_value_app, digits_value_zeros.
  by rewrite Z.mul_0_l.
Qed.

Lemma slice_split (k : nat) (s : string) :
  Js.slice_to k s ++ Js.slice_from k s = s.
Proof.
  revert s. induction k as [|k IH]; intros [|ch s]; try done.
  cbn [Js.slice_to Js.slice_from]. rewrite append_cons. by rewrite IH.
Qed.

Lemma slice_from_length (k : nat) (s : string) :
  String.length (Js.slice_from k s) = (String.length s - k)%nat.
Proof.
  revert s. induction k as [|k IH]; intros [|ch s]; try done.
  cbn [Js.slice_from String.length]. by rewrite IH.
Qed.

Lemma strip_trailing_zeros_split (s : string) :
  ∃ j, s = Js.strip_trailing_zeros s ++ Js.zeros j.
Proof.
  induction s as [|ch s [j IH]]; [by exists 0%nat|].
  cbn [Js.strip_trailing_zeros].
  destruct (Js.strip_trailing_zeros s) as [|ch' s'] eqn:Hs.
  - rewrite append_nil in IH. destruct (Ascii.eqb_spec ch "0") as [->|_].
    + exists (S j). rewrite append_nil. cbn. by rewrite <- IH.
    + exists j. rewrite append_cons, append_nil. by rewrite <- IH.
  - exists j. rewrite append_cons. by rewrite <- IH.
Qed.

Lemma digit_is_not_point (ch : ascii) (d : Z) :
  Js.digit_val ch = Some d → Ascii.eqb ch "." = false ∧ Ascii.eqb ch "-" = false.
Proof.
  intros H. split.
  - destruct (Ascii.eqb_spec ch ".") as [->|]; [discriminate|done].
  - destruct (Ascii.eqb_spec ch "-") as [->|]; [discriminate|done].
Qed.

Lemma split_point_digits (i : string) (v acc : Z) :
  digits_value i acc = Some v →
  split_point i = (i, None)
  ∧ ∀ f, split_point (i ++ String "." f) = (i, Some f).
Proof.
  revert acc. induction i as [|ch i IH]; intros acc H.
  - split; [done|]. intros f. by rewrite append_nil.
  - rewrite digits_value_cons in H.
    destruct (Js.digit_val ch) as [d|] eqn:Hd; [|done].
    destruct (digit_is_not_point ch d Hd) as [Hp _].
    destruct (IH _ H) as [IH1 IH2]. split.
    + cbn [split_point]. by rewrite Hp, IH1.
    + intros f. rewrite append_cons. cbn [split_point]. by rewrite Hp, IH2.
Qed.

Lemma scaled_sum (iv fv P J : Z) :
  P ≠ 0 → J ≠ 0 →
  (Qc_of_Z (iv * (P * J) + fv * J) / Qc_of_Z (P * J)
   = Qc_of_Z iv + Qc_of_Z fv / Qc_of_Z P)%Qc.
Proof.
  intros HP HJ.
  assert (Qc_of_Z P ≠ Q2Qc 0) by (rewrite <- Z2Qc_inj_0; by intros ?%Z2Qc_inj).
  assert (Qc_of_Z J ≠ Q2Qc 0) by (rewrite <- Z2Qc_inj_0; by intros ?%Z2Qc_inj).
  rewrite Z2Qc_inj_add, !Z2Qc_inj_mul. field. done.
Qed.

Lemma digits_not_negative (s : string) (v : Z) :
  digits_value s 0 = Some v → Js.startsWith s "-" = false.
Proof.
  unfold Js.startsWith. destruct s as [|ch s]; [done|].
  rewrite digits_value_cons. destruct (Js.digit_val ch) as [d|] eqn:Hd; [|done].
  intros _. cbn -[ascii_dec]. destruct (ascii_dec "-" ch) as [<-|]; [discriminate|done].
Qed.

(** The numeral printed by [formatUnits] denotes [value / 10^decimals]. *)
Lemma formatUnits_value (b d : Z) :
  0 ≤ b → 0 ≤ d →
  decimal_value (Viem.formatUnits b d)
  = Some (Qc_of_Z b / Qc_of_Z (10 ^ d))%Qc.
Proof.
  intros Hb Hd. unfold Viem.formatUnits.
  destruct (toString_value b Hb) as [Hv Hne].
  rewrite (digits_not_negative _ _ Hv). rewrite append_nil.
  set (dn := Z.to_nat d).
  set (padded := Js.padStart0 (Js.BigInt_toString b) dn).
  set (k := (String.length padded - dn)%nat).
  assert (Hpad : digits_value padded 0 = Some b).
  { unfold padded. by rewrite digits_value_padStart. }
  assert (Hlen : (dn ≤ String.length padded)%nat).
  { unfold padded, Js.padStart0. rewrite length_append, zeros_length. lia. }
  rewrite <- (slice_split k padded) in Hpad.
  rewrite digits_value_app in Hpad.
  destruct (digits_value (Js.slice_to k padded) 0) as [iv|] eqn:Hi; [|done].
  cbn in Hpad. rewrite digits_value_acc in Hpad.
  rewrite slice_from_length in Hpad.
  replace (String.length padded - k)%nat with dn in Hpad by lia.
  destruct (strip_trailing_zeros_split (Js.slice_from k padded)) as [j Hj].
  assert (Hflen : (String.length (Js.strip_trailing_zeros (Js.slice_from k padded))
                   + j)%nat = dn).
  { rewrite <- (zeros_length j) at 1. rewrite <- length_append, <- Hj.
    rewrite slice_from_length. lia. }
  rewrite Hj in Hpad. rewrite digits_value_app in Hpad.
  set (F := Js.strip_trailing_zeros (Js.slice_from k padded)) in *.
  destruct (digits_value F 0) as [fv|] eqn:Hf; [|done].
  cbn in Hpad. rewrite digits_value_zeros in Hpad. cbn in Hpad.
  injection Hpad as Hb'.
  set (I := Js.or_str (Some (Js.slice_to k padded)) "0").
  assert (HI : digits_value I 0 = Some iv ∧ I ≠ "").
  { unfold I. destruct (Js.slice_to k padded); [|done].
    cbn in Hi. by injection Hi as <-. }
  destruct HI as [HI HIne].
  destruct (split_point_digits I iv 0 HI) as [Hsp1 Hsp2].
  assert (Hd10 : 10 ^ d = 10 ^ Z.of_nat (String.length F) * 10 ^ Z.of_nat j).
  { rewrite <- Z.pow_add_r, <- Nat2Z.inj_add, Hflen by lia.
    unfold dn. by rewrite Z2Nat.id. }
  assert (Hhead : ∀ rest, decimal_value (I ++ rest) = unsigned_value (I ++ rest)).
  { intros rest. destruct I as [|ch I']; [done|]. rewrite append_cons.
    cbn [decimal_value]. rewrite digits_value_cons in HI.
    destruct (Js.digit_val ch) as [dd|] eqn:Hdd; [|done].
    by destruct (digit_is_not_point ch dd Hdd) as [_ ->]. }
  assert (Hscale : (Qc_of_Z b / Qc_of_Z (10 ^ d)
                    = Qc_of_Z iv + Qc_of_Z fv
                                   / Qc_of_Z (10 ^ Z.of_nat (String.length F)))%Qc).
  { rewrite Hd10, <- Hb'.
    replace (Z.of_nat dn) with (Z.of_nat (String.length F) + Z.of_nat j) by lia.
    rewrite Z.pow_add_r by lia. apply scaled_sum; apply Z.pow_nonzero; lia. }
  rewrite Hhead, Hscale. unfold unsigned_value.
  destruct F as [|fc F'] eqn:HF.
  - rewrite append_empty_r, Hsp1.
    destruct I as [|ch I']; [done|]. rewrite HI. cbn [mbind option_bind].
    cbn in Hf. injection Hf as <-. f_equal.
    unfold Qcdiv. by rewrite Z2Qc_inj_0, Qcmult_0_l, Qcplus_0_r.
  - cbv iota. rewrite append_cons, append_nil, Hsp2.
    destruct I as [|ch I']; [done|]. rewrite HI. cbn [mbind option_bind].
    by rewrite Hf.
Qed.

(** ** White space and numerals: the text [parseInt] reads *)

Lemma digits_prefix_value (s : string) (acc v : Z) :
  digits_value s acc = Some v → Js.digits_prefix s (Some acc) = Some v.
Proof.
  revert acc. induction s as [|ch s IH]; intros acc; [done|].
  rewrite digits_value_cons. cbn [Js.digits_prefix default].
  destruct (Js.digit_val ch) as [d|]; [apply IH | done].
Qed.

Lemma digits_prefix_stop (ds rest : string) (acc v : Z) :
  digits_value ds acc = Some v →
  (∀ ch r, rest = String ch r → Js.digit_val ch = None) →
  Js.digits_prefix (ds ++ rest) (Some acc) = Some v.
Proof.
  intros Hv Hrest. revert acc Hv.
  induction ds as [|ch ds IH]; intros acc Hv.
  - rewrite append_nil. cbn in Hv. injection Hv as <-.
    destruct rest as [|ch r]; [done|]. cbn. by rewrite (Hrest ch r).
  - rewrite append_cons. rewrite digits_value_cons in Hv.
    cbn [Js.digits_prefix default].
    destruct (Js.digit_val ch) as [d|]; [by apply IH | done].
Qed.

Lemma no_leading_digit_val (rest : string) :
  no_leading_digit rest → ∀ ch r, rest = String ch r → Js.digit_val ch = None.
Proof. intros H ch r ->. cbn [no_leading_digit] in H. by rewrite <- decimal_digit_val. Qed.

Lemma white_space_listed (w : string) :
  white_space w ↔ w ∈ (utf8 <$> white_space_code_points).
Proof.
  unfold white_space. rewrite list_elem_of_fmap. split.
  - intros (cp & Hin & ->). eauto.
  - intros (cp & -> & Hin). eauto.
Qed.

(** A byte is its character. *)
Lemma byte_is (c : ascii) (n : N) : Js.byte c = n → c = ascii_of_N n.
Proof. unfold Js.byte. intros <-. by rewrite ascii_N_embedding. Qed.

Ltac white_space_here :=
  apply white_space_listed, (bool_decide_unpack _); vm_compute; exact I.

Lemma is_white1_spec (c1 : ascii) :
  Js.is_white1 (Js.byte c1) = true → white_space (String c1 "").
Proof.
  unfold Js.is_white1. intros H.
  assert (Js.byte c1 = 9 ∨ Js.byte c1 = 10 ∨ Js.byte c1 = 11 ∨ Js.byte c1 = 12
          ∨ Js.byte c1 = 13 ∨ Js.byte c1 = 32)%N as Hc.
  { rewrite orb_true_iff, andb_true_iff, !N.leb_le, N.eqb_eq in H. lia. }
  repeat (destruct Hc as [Hc|Hc]);
    apply byte_is in Hc; subst c1; white_space_here.
Qed.

Lemma is_white2_spec (c1 c2 : ascii) :
  Js.is_white2 (Js.byte c1) (Js.byte c2) = true →
  white_space (String c1 (String c2 "")).
Proof.
  unfold Js.is_white2.
  rewrite andb_true_iff, !N.eqb_eq. intros [H1 H2].
  apply byte_is in H1, H2. subst. white_space_here.
Qed.

Lemma is_white3_spec (c1 c2 c3 : ascii) :
  Js.is_white3 (Js.byte c1) (Js.byte c2) (Js.byte c3) = true →
  white_space (String c1 (String c2 (String c3 ""))).
Proof.
  unfold Js.is_white3.
  repeat (rewrite orb_true_iff || rewrite andb_true_iff).
  rewrite !N.eqb_eq, !N.leb_le.
  intros [[[[[[H1 H2] H3]|[[H1 H2] H3]]|[[H1 H2] H3]]|[[H1 H2] H3]]|[[H1 H2] H3]];
    apply byte_is in H1, H2; subst c1 c2.
  - apply byte_is in H3. subst. white_space_here.
  - assert (Js.byte c3 = 128 ∨ Js.byte c3 = 129 ∨ Js.byte c3 = 130
            ∨ Js.byte c3 = 131 ∨ Js.byte c3 = 132 ∨ Js.byte c3 = 133
            ∨ Js.byte c3 = 134 ∨ Js.byte c3 = 135 ∨ Js.byte c3 = 136
            ∨ Js.byte c3 = 137 ∨ Js.byte c3 = 138 ∨ Js.byte c3 = 168
            ∨ Js.byte c3 = 169 ∨ Js.byte c3 = 175)%N as Hc by lia.
    repeat (destruct Hc as [Hc|Hc]);
      apply byte_is in Hc; subst c3; white_space_here.
  - apply byte_is in H3. subst. white_space_here.
  - apply byte_is in H3. subst. white_space_here.
  - apply byte_is in H3. subst. white_space_here.
Qed.

Lemma white_space_nonempty (w : string) : white_space w → (0 < String.length w)%nat.
Proof.
  intros H%white_space_listed. revert H. cbv [fmap list_fmap white_space_code_points].
  rewrite !elem_of_cons, elem_of_nil.
  intros H. repeat (destruct H as [->|H]; [vm_compute; lia|]). done.
Qed.

(** [trim_start] drops each white space character in front. *)
Lemma trim_start_white (w s : string) :
  white_space w → Js.trim_start (w ++ s) = Js.trim_start s.
Proof.
  intros H%white_space_listed. revert H. cbv [fmap list_fmap white_space_code_points].
  rewrite !elem_of_cons, elem_of_nil.
  intros H. repeat (destruct H as [->|H]; [reflexivity|]). done.
Qed.

(** One step of [trim_start]: either nothing is dropped, or the text
    starts with a white space character and the rest is trimmed. *)
Lemma trim_start_step (s : string) :
  Js.trim_start s = s
  ∨ ∃ w r, white_space w ∧ s = w ++ r ∧ Js.trim_start s = Js.trim_start r.
Proof.
  destruct s as [|c1 r1]; [by left|]. cbn [Js.trim_start].
  destruct (Js.is_white1 (Js.byte c1)) eqn:H1.
  { right. exists (String c1 ""), r1. split; [by apply is_white1_spec | done]. }
  destruct r1 as [|c2 r2]; [by left|].
  destruct (Js.is_white2 (Js.byte c1) (Js.byte c2)) eqn:H2.
  { right. exists (String c1 (String c2 "")), r2.
    split; [by apply is_white2_spec | done]. }
  destruct r2 as [|c3 r3]; [by left|].
  destruct (Js.is_white3 (Js.byte c1) (Js.byte c2) (Js.byte c3)) eqn:H3; [|by left].
  right. exists (String c1 (String c2 (String c3 ""))), r3.
  split; [by apply is_white3_spec | done].
Qed.

(** A text that starts with an ASCII character other than white space is
    left as it is. *)
Lemma trim_start_ascii (c : ascii) (r : string) :
  (Js.byte c < 128)%N → Js.is_white1 (Js.byte c) = false →
  Js.trim_start (String c r) = String c r.
Proof.
  intros Hlt H1. cbn [Js.trim_start]. rewrite H1.
  destruct r as [|c2 r2]; [done|].
  assert (Js.is_white2 (Js.byte c) (Js.byte c2) = false) as ->.
  { unfold Js.is_white2. destruct (N.eqb_spec (Js.byte c) 194); [lia|done]. }
  destruct r2 as [|c3 r3]; [done|].
  assert (Js.is_white3 (Js.byte c) (Js.byte c2) (Js.byte c3) = false) as ->; [|done].
  unfold Js.is_white3.
  destruct (N.eqb_spec (Js.byte c) 225); [lia|].
  destruct (N.eqb_spec (Js.byte c) 226); [lia|].
  destruct (N.eqb_spec (Js.byte c) 227); [lia|].
  destruct (N.eqb_spec (Js.byte c) 239); [lia|]. done.
Qed.

Lemma digit_is_ascii (ch : ascii) (d : Z) :
  Js.digit_val ch = Some d →
  (Js.byte ch < 128)%N ∧ Js.is_white1 (Js.byte ch) = false
  ∧ Ascii.eqb ch "+" = false ∧ Ascii.eqb ch "-" = false.
Proof.
  intros H. unfold Js.digit_val in H. unfold Js.is_white1, Js.byte.
  destruct (Z.leb_spec 48 (Z.of_N (N_of_ascii ch))) as [Hlo|]; [|done].
  destruct (Z.leb_spec (Z.of_N (N_of_ascii ch)) 57) as [Hhi|]; [|done].
  split; [lia|]. split.
  - destruct (N.leb_spec 9 (N_of_ascii ch)), (N.leb_spec (N_of_ascii ch) 13),
      (N.eqb_spec (N_of_ascii ch) 32); cbn; try done; lia.
  - split.
    + destruct (Ascii.eqb_spec ch "+") as [->|]; [cbn in Hlo; lia | done].
    + destruct (Ascii.eqb_spec ch "-") as [->|]; [cbn in Hlo; lia | done].
Qed.

(** The digits [digits_prefix] consumes. *)
Lemma digits_prefix_split (s : string) (acc v : Z) :
  Js.digits_prefix s (Some acc) = Some v →
  ∃ ds rest, s = ds ++ rest ∧ digits_value ds acc = Some v
             ∧ no_leading_digit rest.
Proof.
  revert acc. induction s as [|ch s IH]; intros acc H.
  - exists "", "". cbn in *. by injection H as <-.
  - cbn [Js.digits_prefix] in H.
    destruct (Js.digit_val ch) as [d|] eqn:Hd.
    + destruct (IH _ H) as (ds & rest & -> & Hv & Hrest).
      exists (String ch ds), rest. rewrite append_cons.
      split; [done|]. split; [|done]. by rewrite digits_value_cons, Hd.
    + cbn in H. injection H as <-. exists "", (String ch s).
      split; [done|]. split; [done|]. cbn [no_leading_digit].
      by rewrite decimal_digit_val.
Qed.

Lemma digits_prefix_numeral (s : string) (n : Z) :
  Js.digits_prefix s None = Some n ↔
  ∃ ds rest, s = ds ++ rest ∧ ds ≠ "" ∧ digits_value ds 0 = Some n
             ∧ no_leading_digit rest.
Proof.
  split.
  - destruct s as [|ch s]; [done|]. cbn [Js.digits_prefix].
    destruct (Js.digit_val ch) as [d|] eqn:Hd; [|done]. cbn [default].
    intros (ds & rest & -> & Hv & Hrest)%digits_prefix_split.
    exists (String ch ds), rest. rewrite append_cons. split; [done|].
    split; [done|]. split; [|done]. by rewrite digits_value_cons, Hd.
  - intros (ds & rest & -> & Hne & Hv & Hrest).
    destruct ds as [|ch ds]; [done|]. rewrite append_cons.
    rewrite digits_value_cons in Hv. cbn [Js.digits_prefix].
    destruct (Js.digit_val ch) as [d|]; [|done]. cbn [default].
    apply digits_prefix_stop; [done|]. by apply no_leading_digit_val.
Qed.

Lemma first_digit (ds rest : string) (n : Z) :
  ds ≠ "" → digits_value ds 0 = Some n →
  ∃ ch r d, ds ++ rest = String ch r ∧ Js.digit_val ch = Some d.
Proof.
  intros Hne Hv. destruct ds as [|ch ds]; [done|].
  rewrite digits_value_cons in Hv.
  destruct (Js.digit_val ch) as [d|] eqn:Hd; [|done].
  exists ch, (ds ++ rest), d. by rewrite append_cons.
Qed.

(** [parseInt] reads exactly the integer texts. *)
Lemma integer_text_sound (s : string) (n : Z) :
  integer_text s n → Js.signed_digits (Js.trim_start s) = Some n.
Proof.
  induction 1 as [w s n Hw _ IH|ds rest n Hne Hv Hrest|ds rest n Hne Hv Hrest
                  |ds rest n Hne Hv Hrest].
  - by rewrite trim_start_white.
  - rewrite append_cons, append_nil, trim_start_ascii by done.
    unfold Js.signed_digits. change (Ascii.eqb "-" "-") with true. cbv iota.
    assert (Js.digits_prefix (ds ++ rest) None = Some n) as ->
      by (apply digits_prefix_numeral; eauto 6).
    f_equal; lia.
  - rewrite append_cons, append_nil, trim_start_ascii by done.
    unfold Js.signed_digits. change (Ascii.eqb "+" "-") with false.
    change (Ascii.eqb "+" "+") with true. cbv iota.
    assert (Js.digits_prefix (ds ++ rest) None = Some n) as ->
      by (apply digits_prefix_numeral; eauto 6).
    f_equal; lia.
  - assert (Hp : Js.digits_prefix (ds ++ rest) None = Some n)
      by (apply digits_prefix_numeral; eauto 6).
    destruct (first_digit ds rest n Hne Hv) as (ch & r & d & E & Hd).
    rewrite E in *. destruct (digit_is_ascii ch d Hd) as (Hlt & Hw & Hplus & Hminus).
    rewrite trim_start_ascii by done.
    unfold Js.signed_digits. rewrite Hminus, Hplus, Hp. f_equal; lia.
Qed.

Lemma signed_digits_text (t : string) (n : Z) :
  Js.signed_digits t = Some n → integer_text t n.
Proof.
  unfold Js.signed_digits. destruct t as [|ch r]; [done|].
  destruct (Ascii.eqb_spec ch "-") as [->|Hminus].
  { destruct (Js.digits_prefix r None) as [m|] eqn:Hp; [|done].
    intros [= <-]. apply digits_prefix_numeral in Hp as (ds & rest & -> & ? & ? & ?).
    replace (-1 * m) with (- m) by lia.
    by apply (integer_text_minus ds rest m). }
  destruct (Ascii.eqb_spec ch "+") as [->|Hplus].
  { destruct (Js.digits_prefix r None) as [m|] eqn:Hp; [|done].
    intros [= <-]. apply digits_prefix_numeral in Hp as (ds & rest & -> & ? & ? & ?).
    replace (1 * m) with m by lia.
    by apply (integer_text_plus ds rest m). }
  destruct (Js.digits_prefix (String ch r) None) as [m|] eqn:Hp; [|done].
  intros [= <-]. apply digits_prefix_numeral in Hp as (ds & rest & -> & ? & ? & ?).
  replace (1 * m) with m by lia.
  by apply integer_text_plain.
Qed.

Lemma integer_text_trim (s : string) (n : Z) :
  integer_text (Js.trim_start s) n → integer_text s n.
Proof.
  remember (String.length s) as len eqn:Hlen.
  revert s Hlen. induction len as [len IH] using lt_wf_ind. intros s -> H.
  destruct (trim_start_step s) as [E|(w & r & Hw & -> & E)].
  - by rewrite E in H.
  - apply integer_text_space; [done|]. rewrite E in H.
    apply (IH (String.length r)); [|done..].
    rewrite length_append. pose proof (white_space_nonempty w Hw). lia.
Qed.

Lemma integer_text_spec (s : string) (n : Z) :
  integer_text s n ↔ Js.signed_digits (Js.trim_start s) = Some n.
Proof.
  split; [apply integer_text_sound|].
  intros H. by apply integer_text_trim, signed_digits_text.
Qed.

Lemma parseInt_integer (s : string) (n : Z) :
  integer_text s n → Js.parseInt s = Js.round64 (Qc_of_Z n).
Proof. intros H%integer_text_sound. unfold Js.parseInt. by rewrite H. Qed.

Lemma parseInt_cases (s : string) :
  (Js.parseInt s = Js.NaN ∧ ∀ n, ¬ integer_text s n)
  ∨ ∃ n, integer_text s n ∧ Js.parseInt s = Js.round64 (Qc_of_Z n).
Proof.
  unfold Js.parseInt.
  destruct (Js.signed_digits (Js.trim_start s)) as [n|] eqn:E.
  - right. exists n. split; [by apply integer_text_spec | done].
  - left. split; [done|]. intros n H%integer_text_spec. congruence.
Qed.

(** A text with no white space in front is not trimmed. *)
Lemma starts_with_white_space_prefix (w r : string) :
  white_space w → starts_with_white_space (w ++ r) = true.
Proof.
  intros (cp & Hin & ->). unfold starts_with_white_space.
  apply existsb_exists. exists cp. split; [by apply list_elem_of_In|].
  induction (utf8 cp) as [|ch u IH]; [by destruct r|].
  rewrite append_cons. cbn -[ascii_dec]. by destruct (ascii_dec ch ch).
Qed.

Lemma trim_start_none (s : string) :
  starts_with_white_space s = false → Js.trim_start s = s.
Proof.
  intros H. destruct (trim_start_step s) as [E|(w & r & Hw & -> & E)]; [done|].
  by rewrite starts_with_white_space_prefix in H.
Qed.

(** ** The payment policy *)

Lemma ten_thousand_nonzero : Qc_of_Z 10000 ≠ Qc_of_Z 0.
Proof. intros H. by apply Z2Qc_inj in H. Qed.

(** The text the callback prices is the amount text of the offer. *)
Lemma amount_text_spec (a : PaymentRequirement) (s : string) :
  amount_text a s ↔ amountSource a = s.
Proof.
  unfold amountSource, Js.or_str, absent. split.
  - intros [s' Hm Hne | s' Hm Ha Hne | Hm Ha].
    + rewrite Hm. by destruct s'.
    + rewrite Ha. destruct Hm as [-> | ->]; by destruct s'.
    + by destruct Hm as [-> | ->], Ha as [-> | ->].
  - intros <-. destruct (maxAmountRequired a) as [[|c r]|] eqn:Hm.
    + destruct (amount a) as [[|c r]|] eqn:Ha.
      * apply amount_text_zero; unfold absent; auto.
      * apply amount_text_amount; unfold absent; auto.
      * apply amount_text_zero; unfold absent; auto.
    + by apply amount_text_max.
    + destruct (amount a) as [[|c r]|] eqn:Ha.
      * apply amount_text_zero; unfold absent; auto.
      * apply amount_text_amount; unfold absent; auto.
      * apply amount_text_zero; unfold absent; auto.
Qed.

(** The quotient the callback computes, and its comparison. *)
Lemma cents_of_div (n : Z) :
  Js.div (Js.round64 (Qc_of_Z n)) (Js.of_Z 10000) = cents_of n.
Proof.
  unfold cents_of, Js.div, Js.of_Z.
  destruct (Js.round64 (Qc_of_Z n)) as [|b|u]; [done|by destruct b|].
  destruct (decide (Qc_of_Z 10000 = Qc_of_Z 0)) as [E|_]; [|done].
  by destruct ten_thousand_nonzero.
Qed.

Lemma at_most_le (x : Js.number) (maxPayment : Qc) :
  at_most x maxPayment ↔ Js.le x (Js.Num maxPayment) = true.
Proof.
  destruct x as [|[]|q]; cbn; rewrite ?bool_decide_eq_true; split; done.
Qed.

Lemma amountCents_integer (a : PaymentRequirement) (s : string) (n : Z) :
  amount_text a s → integer_text s n → amountCents a = cents_of n.
Proof.
  intros <-%amount_text_spec Ht. unfold amountCents.
  by rewrite (parseInt_integer _ _ Ht), cents_of_div.
Qed.

(** The callback decides [affordable]. *)
Lemma withinBudget_spec (maxPayment : Qc) (a : PaymentRequirement) :
  withinBudget (Js.Num maxPayment) a = true ↔ affordable maxPayment a.
Proof.
  unfold withinBudget, affordable. split.
  - destruct (parseInt_cases (amountSource a)) as [[E _]|(n & Ht & _)].
    + unfold amountCents. rewrite E. discriminate.
    + assert (Hs : amount_text a (amountSource a)) by (by apply amount_text_spec).
      rewrite (amountCents_integer a _ n Hs Ht). intros H%at_most_le. eauto.
  - intros (s & n & Hs & Ht & H).
    rewrite (amountCents_integer a s n Hs Ht). by apply at_most_le.
Qed.

#[global] Instance affordable_dec (maxPayment : Qc) (a : PaymentRequirement) :
  Decision (affordable maxPayment a).
Proof.
  destruct (withinBudget (Js.Num maxPayment) a) eqn:E.
  - left. by apply withinBudget_spec.
  - right. intros H%withinBudget_spec. congruence.
Defined.

(** [Array.prototype.filter] with a callback deciding [P] is the filter
    by [P]. *)
Lemma Array_filter_filter {A : Type} (f : A → bool) (P : A → Prop)
    `{!∀ x, Decision (P x)} (xs : list A) :
  (∀ x, f x = true ↔ P x) → Js.Array_filter f xs = filter P xs.
Proof.
  intros Hf. induction xs as [|x xs IH]; [done|]. simpl.
  destruct (f x) eqn:E.
  - apply Hf in E. rewrite filter_cons_True by exact E. by rewrite IH.
  - rewrite filter_cons_False; [done|]. intros HP. apply Hf in HP. congruence.
Qed.

Lemma Array_filter_elem {A : Type} (f : A → bool) (xs : list A) (x : A) :
  x ∈ Js.Array_filter f xs ↔ x ∈ xs ∧ f x = true.
Proof.
  rewrite (Array_filter_filter f (λ y, f y = true)) by done.
  rewrite list_elem_of_filter. tauto.
Qed.

Lemma positive_is_truthy (maxPayment : Qc) :
  (Qc_of_Z 0 < maxPayment)%Qc → Js.truthy (Js.Num maxPayment) = true.
Proof.
  intros Hpos. simpl. apply negb_true_iff, bool_decide_eq_false.
  intros ->. by apply Qclt_not_eq in Hpos.
Qed.

(** C1, as stated, fails: the amount is parsed and divided in the
    arithmetic of doubles.  With a budget of 900719925474099 cents the
    policy keeps the offer of 9007199254740990001 units, whose exact
    quotient by 10^4 exceeds the budget by one ten-thousandth: the amount
    is parsed as 9007199254740989952. *)
Lemma rounding_keeps_dearer_offer :
  ¬ (∀ (maxPayment : Qc) (version : Z) (accepts : list PaymentRequirement)
       (a : PaymentRequirement),
       (Qc_of_Z 0 < maxPayment)%Qc →
       a ∈ maxPaymentPolicy (Js.Num maxPayment) version accepts →
       costs_at_most maxPayment a).
Proof.
  intros H.
  destruct (H (Qc_of_Z 900719925474099) 2
              [offer (Some "9007199254740990001") None]
              (offer (Some "9007199254740990001") None))
    as (s & n & Hs & Ht & Hle).
  - reflexivity.
  - assert (E : maxPaymentPolicy (Js.Num (Qc_of_Z 900719925474099)) 2
                  [offer (Some "9007199254740990001") None]
                = [offer (Some "9007199254740990001") None])
      by (vm_compute; reflexivity).
    rewrite E. apply list_elem_of_here.
  - apply amount_text_spec in Hs. cbn in Hs. subst s.
    apply integer_text_sound in Ht. vm_compute in Ht. injection Ht as <-.
    apply (proj1 (Qc_frac_le_Z 9007199254740990001 10000 900719925474099
                    ltac:(lia))) in Hle.
    lia.
Qed.

(** C1, amended.  With a positive budget exactly one policy is installed,
    and on every list of requirements it returns the requirements that
    are affordable: the amount text ([maxAmountRequired], else [amount],
    else [0]) is read as a base-10 integer, rounded to the nearest double
    and divided by 10^4, the quotient rounded again, and the result is at
    most the budget.  They come in the order of the input, each as it
    was, none added. *)
Theorem policy_budget_subsequence (maxPayment : Qc) (version : Z)
    (accepts : list PaymentRequirement) :
  (Qc_of_Z 0 < maxPayment)%Qc →
  ∃ policy : Policy,
    configuredPolicies (Js.Num maxPayment) = Some [policy]
    ∧ policy version accepts = filter (affordable maxPayment) accepts
    ∧ sublist (policy version accepts) accepts
    ∧ ∀ a, a ∈ policy version accepts ↔ a ∈ accepts ∧ affordable maxPayment a.
Proof.
  intros Hpos. exists (maxPaymentPolicy (Js.Num maxPayment)).
  assert (Hout : maxPaymentPolicy (Js.Num maxPayment) version accepts
                 = filter (affordable maxPayment) accepts).
  { apply Array_filter_filter, withinBudget_spec. }
  split; [|split; [exact Hout|split]].
  - unfold configuredPolicies. by rewrite positive_is_truthy.
  - rewrite Hout. apply sublist_filter.
  - intros a. rewrite Hout, list_elem_of_filter. tauto.
Qed.

Lemma policy_budget_subsequence_witness :
  ∃ policy : Policy,
    configuredPolicies (Js.Num (Qc_of_Z 50)) = Some [policy]
    ∧ policy 2 [offer (Some "600000") None; offer None (Some "400000")]
      = filter (affordable (Qc_of_Z 50))
          [offer (Some "600000") None; offer None (Some "400000")]
    ∧ sublist (policy 2 [offer (Some "600000") None; offer None (Some "400000")])
        [offer (Some "600000") None; offer None (Some "400000")]
    ∧ ∀ a, a ∈ policy 2 [offer (Some "600000") None; offer None (Some "400000")]
           ↔ a ∈ [offer (Some "600000") None; offer None (Some "400000")]
             ∧ affordable (Qc_of_Z 50) a.
Proof.
  apply (policy_budget_subsequence (Qc_of_Z 50) 2
           [offer (Some "600000") None; offer None (Some "400000")]).
  reflexivity.
Defined.

Example policy_run :
  maxPaymentPolicy (Js.of_Z 50) 2
    [offer (Some "600000") None; offer None (Some "400000");
     offer (Some "abc") None; offer (Some "500000") (Some "1")]
  = [offer None (Some "400000"); offer (Some "500000") (Some "1")].
Proof. vm_compute. reflexivity. Qed.

(** The offer of the counterexample is kept although it is dearer than
    the budget, and an offer one rounding step above is dropped. *)
Example policy_run_large :
  maxPaymentPolicy (Js.of_Z 900719925474099) 2
    [offer (Some "9007199254740990001") None;
     offer (Some "9007199254740992000") None]
  = [offer (Some "9007199254740990001") None].
Proof. vm_compute. reflexivity. Qed.

(** Amounts written as plain numerals. *)
Lemma parseInt_numeral (s : string) (n : Z) :
  digits_value s 0 = Some n → s ≠ "" → Js.parseInt s = Js.round64 (Qc_of_Z n).
Proof.
  intros Hv Hne. apply parseInt_integer. rewrite <- (append_empty_r s).
  by apply integer_text_plain.
Qed.

Lemma parseInt_negative (ds : string) (n : Z) :
  digits_value ds 0 = Some n → ds ≠ "" →
  Js.parseInt ("-" ++ ds) = Js.round64 (Qc_of_Z (- n)).
Proof.
  intros Hv Hne. apply parseInt_integer. rewrite <- (append_empty_r ds).
  by apply (integer_text_minus ds "" n).
Qed.

Lemma amountCents_numeral (a : PaymentRequirement) (n : Z) :
  0 ≤ n → amountSource a = Js.BigInt_toString n →
  amountCents a = Js.div (Js.round64 (Qc_of_Z n)) (Js.of_Z 10000).
Proof.
  intros Hn Hsrc. destruct (toString_value n Hn) as [Hv Hne].
  unfold amountCents. by rewrite Hsrc, (parseInt_numeral _ _ Hv Hne).
Qed.

(** ** Which policies a wallet installs *)

Lemma createWallet_policies (pk : string → Result Account) (key : string)
    (opts : Options) (w : Wallet) :
  createWallet pk key opts = Ok w →
  policies (client w)
  = configuredPolicies (default (Js.of_Z 100) (opt_maxPayment opts)).
Proof.
  unfold createWallet. destruct (pk (normalizeKey key)); [|discriminate].
  by intros [= <-].
Qed.

(** A wallet created with a positive [maxPayment] installs the budget
    filter for that amount. *)
Lemma createWallet_budget_policy (pk : string → Result Account) (key : string)
    (opts : Options) (w : Wallet) (maxPayment : Qc) :
  createWallet pk key opts = Ok w →
  opt_maxPayment opts = Some (Js.Num maxPayment) →
  (Qc_of_Z 0 < maxPayment)%Qc →
  policies (client w) = Some [maxPaymentPolicy (Js.Num maxPayment)].
Proof.
  intros Hw Hopt Hpos. rewrite (createWallet_policies _ _ _ _ Hw), Hopt.
  change (default (Js.of_Z 100) (Some (Js.Num maxPayment))) with (Js.Num maxPayment).
  unfold configuredPolicies. by rewrite positive_is_truthy.
Qed.

Example createWalletFromEnv_unset :
  createWalletFromEnv sample_account ∅ None no_options
  = Err (EnvNotSet "X402_PRIVATE_KEY").
Proof. reflexivity. Qed.

Lemma applyPolicies_none (version : Z) (accepts : list PaymentRequirement) :
  X402.applyPolicies None version accepts = accepts.
Proof. reflexivity. Qed.

Lemma applyPolicies_single (p : Policy) (version : Z)
    (accepts : list PaymentRequirement) :
  X402.applyPolicies (Some [p]) version accepts = p version accepts.
Proof. reflexivity. Qed.

(** C2, as stated, fails: a wallet created without [maxPayment] gets the
    default budget of 100 cents, and an offer of two dollars is dropped. *)
Lemma omitted_budget_still_filters :
  ¬ (∀ (opts : Options) (w : Wallet) (accepts : list PaymentRequirement),
       opt_maxPayment opts = None ∨ opt_maxPayment opts = Some (Js.of_Z 0) →
       createWallet sample_account TEST_KEY opts = Ok w →
       X402.applyPolicies (policies (client w)) 2 accepts = accepts).
Proof.
  intros H.
  specialize (H no_options _ [offer (Some "2000000") None]
                (or_introl eq_refl) eq_refl).
  vm_compute in H. discriminate H.
Qed.

(** C2, amended.  A falsy [maxPayment] that is given (zero, or [NaN])
    installs no policy, so every list of requirements passes unchanged; an
    omitted [maxPayment] defaults to 100 cents and installs the budget
    filter for 100. *)
Theorem falsy_budget_no_policy (pk : string → Result Account) (key : string)
    (opts : Options) (w : Wallet) :
  createWallet pk key opts = Ok w →
  (∀ m, opt_maxPayment opts = Some m → Js.truthy m = false →
        policies (client w) = None
        ∧ ∀ version accepts,
            X402.applyPolicies (policies (client w)) version accepts = accepts)
  ∧ (opt_maxPayment opts = None →
     policies (client w) = Some [maxPaymentPolicy (Js.of_Z 100)]).
Proof.
  intros Hw. apply createWallet_policies in Hw. split.
  - intros m Hm Hfalsy. rewrite Hm in Hw. simpl in Hw.
    unfold configuredPolicies in Hw. rewrite Hfalsy in Hw.
    split; [done|]. intros version accepts. by rewrite Hw.
  - intros Hnone. by rewrite Hnone in Hw.
Qed.

Lemma falsy_budget_no_policy_witness :
  ∃ w, createWallet sample_account TEST_KEY
         {| opt_network := None; opt_rpcUrl := None;
            opt_maxPayment := Some (Js.of_Z 0) |} = Ok w
       ∧ policies (client w) = None
       ∧ X402.applyPolicies (policies (client w)) 2
           [offer (Some "2000000") None] = [offer (Some "2000000") None].
Proof.
  eexists. split; [reflexivity|].
  destruct (falsy_budget_no_policy sample_account TEST_KEY
              {| opt_network := None; opt_rpcUrl := None;
                 opt_maxPayment := Some (Js.of_Z 0) |} _ eq_refl) as [H _].
  destruct (H (Js.of_Z 0) eq_refl eq_refl) as [Hnone Hid].
  split; [exact Hnone | apply Hid].
Defined.

(** C10.  A requirement with neither [maxAmountRequired] nor [amount] is
    priced from the string ['0'], that is at 0 cents, and survives the
    policies of every non-negative budget. *)
Theorem absent_amount_accepted (a : PaymentRequirement) (maxPayment : Qc) :
  maxAmountRequired a = None → amount a = None →
  (Qc_of_Z 0 ≤ maxPayment)%Qc →
  amountSource a = "0"
  ∧ amountCents a = Js.of_Z 0
  ∧ withinBudget (Js.Num maxPayment) a = true
  ∧ ∀ version accepts,
      a ∈ accepts →
      a ∈ X402.applyPolicies (configuredPolicies (Js.Num maxPayment)) version accepts.
Proof.
  intros Hm Ha Hle.
  assert (Hsrc : amountSource a = "0").
  { unfold amountSource. by rewrite Hm, Ha. }
  assert (Hcents : amountCents a = Js.of_Z 0).
  { unfold amountCents. rewrite Hsrc. number_eq. }
  assert (Hok : withinBudget (Js.Num maxPayment) a = true).
  { unfold withinBudget. rewrite Hcents. simpl. by apply bool_decide_eq_true. }
  repeat split; try done.
  intros version accepts Hin. unfold configuredPolicies.
  destruct (Js.truthy (Js.Num maxPayment)); [|by rewrite applyPolicies_none].
  rewrite applyPolicies_single. unfold maxPaymentPolicy.
  by apply Array_filter_elem.
Qed.

Lemma absent_amount_accepted_witness :
  amountSource (offer None None) = "0"
  ∧ amountCents (offer None None) = Js.of_Z 0
  ∧ withinBudget (Js.Num (Qc_of_Z 50)) (offer None None) = true
  ∧ ∀ version accepts,
      offer None None ∈ accepts →
      offer None None
      ∈ X402.applyPolicies (configuredPolicies (Js.Num (Qc_of_Z 50))) version accepts.
Proof.
  apply (absent_amount_accepted (offer None None) (Qc_of_Z 50));
    [reflexivity | reflexivity | discriminate].
Defined.

(** ** Key normalisation *)

Lemma hex_has_no_prefix (key : string) :
  hex_string key = true → Js.startsWith key "0x" = false.
Proof.
  unfold Js.startsWith.
  destruct key as [|c0 [|c1 r]]; cbn -[ascii_dec]; try done.
  - intros _. by destruct (ascii_dec "0" c0).
  - intros H. destruct (ascii_dec "0" c0) as [<-|]; [|done].
    destruct (ascii_dec "x" c1) as [<-|]; [|done].
    cbn in H. discriminate.
Qed.

(** C9.  For a key of hexadecimal digits, the bare key and the key with
    [0x] in front normalise to the same string, [0x] followed by the
    digits, and [createWallet] hands exactly that string to the
    derivation.  So whenever the derivation accepts that string, both
    spellings produce a wallet, the same one, whose address is the
    derived account's; when it rejects it, both fail with its error. *)
Theorem prefix_does_not_matter (pk : string → Result Account) (key : string)
    (opts : Options) :
  hex_string key = true →
  normalizeKey key = "0x" ++ key
  ∧ normalizeKey ("0x" ++ key) = "0x" ++ key
  ∧ createWallet pk key opts = createWallet pk ("0x" ++ key) opts
  ∧ (∀ account, pk ("0x" ++ key) = Ok account →
       ∃ w, createWallet pk key opts = Ok w
            ∧ createWallet pk ("0x" ++ key) opts = Ok w
            ∧ address w = acc_address account)
  ∧ (∀ e, pk ("0x" ++ key) = Err e →
       createWallet pk key opts = Err e
       ∧ createWallet pk ("0x" ++ key) opts = Err e)
  ∧ ∀ w, createWallet pk key opts = Ok w →
         ∃ account, pk ("0x" ++ key) = Ok account
                    ∧ address w = acc_address account.
Proof.
  intros Hhex.
  assert (H1 : normalizeKey key = "0x" ++ key).
  { unfold normalizeKey. by rewrite hex_has_no_prefix. }
  assert (H2 : normalizeKey ("0x" ++ key) = "0x" ++ key).
  { unfold normalizeKey, Js.startsWith. simpl. by destruct key. }
  split; [done|]. split; [done|]. unfold createWallet. rewrite H1, H2.
  split; [done|]. split; [|split].
  - intros account ->. eexists. split; [reflexivity|]. split; reflexivity.
  - by intros e ->.
  - intros w. destruct (pk ("0x" ++ key)) as [account|]; [|discriminate].
    intros [= <-]. eauto.
Qed.

Lemma prefix_does_not_matter_witness :
  ∃ w,
    createWallet sample_account
      "0123456789abcdef0123456789abcdef0123456789abcdef0123456789abcdef"
      no_options = Ok w
    ∧ createWallet sample_account TEST_KEY no_options = Ok w
    ∧ address w = "0xFCAd0B19bB29D4674531d6f115237E16AfCE377c".
Proof.
  destruct (prefix_does_not_matter sample_account
              "0123456789abcdef0123456789abcdef0123456789abcdef0123456789abcdef"
              no_options) as (_ & _ & _ & H & _); [reflexivity|].
  apply (H {| acc_address := "0xFCAd0B19bB29D4674531d6f115237E16AfCE377c" |}).
  reflexivity.
Defined.

(** ** The convenience wrappers *)

Section Wrappers.

Context (wrap : ClientConfig → Request → M Response).
Context (parse : string → option JSON) (stringify : JSON → string).

(** [get] makes one call of the wrapped fetch and turns its response into
    a result; it fails only when that call fails. *)
Lemma get_unfold (w : Wallet) (u : string) (hs : list (string * string)) (t : Trace) :
  get wrap parse w u hs t
  = match paidFetch wrap w (get_request u hs) t with
    | (Ok response, t') => (Ok (toResult parse response), t')
    | (Err e, t') => (Err e, t')
    end.
Proof.
  unfold get, mbind, M_bind, bind.
  by destruct (paidFetch wrap w _ t) as [[response|e] t'].
Qed.

Lemma post_unfold (w : Wallet) (u : string) (b : JSON)
    (hs : list (string * string)) (t : Trace) :
  post wrap parse stringify w u b hs t
  = match paidFetch wrap w (post_request stringify u b hs) t with
    | (Ok response, t') => (Ok (toResult parse response), t')
    | (Err e, t') => (Err e, t')
    end.
Proof.
  unfold post, mbind, M_bind, bind.
  by destruct (paidFetch wrap w _ t) as [[response|e] t'].
Qed.

Lemma paid_spec (response : Response) :
  paid (toResult parse response) = true ↔ confirms_payment response.
Proof.
  unfold toResult, confirms_payment, Headers_has. cbn [paid].
  rewrite orb_true_iff, !bool_decide_eq_true. reflexivity.
Qed.

(** C5.  When the wrapped fetch delivers a response whose body
    [JSON.parse] rejects, [get] and [post] do not fail: they return a
    result whose [data] is the body text itself. *)
Theorem non_json_body_is_returned_as_text (w : Wallet) (u : string)
    (b : JSON) (hs : list (string * string)) (t t' : Trace)
    (response : Response) :
  parse (text response) = None →
  (paidFetch wrap w (get_request u hs) t = (Ok response, t') →
   ∃ result, get wrap parse w u hs t = (Ok result, t')
             ∧ data result = JString (text response)
             ∧ res_status result = status response)
  ∧ (paidFetch wrap w (post_request stringify u b hs) t = (Ok response, t') →
     ∃ result, post wrap parse stringify w u b hs t = (Ok result, t')
               ∧ data result = JString (text response)
               ∧ res_status result = status response).
Proof.
  intros Hbad. split; intros Hfetch.
  - exists (toResult parse response). rewrite get_unfold, Hfetch.
    unfold toResult. cbn. by rewrite Hbad.
  - exists (toResult parse response). rewrite post_unfold, Hfetch.
    unfold toResult. cbn. by rewrite Hbad.
Qed.

(** C6.  The [paid] flag of the result of [get] and of [post] is [true]
    exactly when the response the wrapped fetch delivered carries
    [x-payment-response] or [payment-response], and [false] otherwise. *)
Theorem paid_iff_confirmation_header (w : Wallet) (u : string)
    (b : JSON) (hs : list (string * string)) (t t' : Trace)
    (response : Response) :
  (paidFetch wrap w (get_request u hs) t = (Ok response, t') →
   ∃ result, get wrap parse w u hs t = (Ok result, t')
             ∧ (paid result = true ↔ confirms_payment response)
             ∧ (paid result = false ↔ ¬ confirms_payment response))
  ∧ (paidFetch wrap w (post_request stringify u b hs) t = (Ok response, t') →
     ∃ result, post wrap parse stringify w u b hs t = (Ok result, t')
               ∧ (paid result = true ↔ confirms_payment response)
               ∧ (paid result = false ↔ ¬ confirms_payment response)).
Proof.
  assert (Hflag : ∀ r : HttpResult,
            (paid r = true ↔ confirms_payment response) →
            (paid r = false ↔ ¬ confirms_payment response)).
  { intros r <-. by destruct (paid r). }
  split; intros Hfetch; exists (toResult parse response).
  - rewrite get_unfold, Hfetch. auto using paid_spec.
  - rewrite post_unfold, Hfetch. auto using paid_spec.
Qed.

End Wrappers.

Lemma non_json_body_is_returned_as_text_witness :
  ∃ result,
    get (X402.wrapFetchWithPayment (sample_world (free_server "<html>hi</html>")))
      parse_literal (wallet_with no_options) "https://example.org/" [] []
    = (Ok result, [EvHttp (get_request "https://example.org/" [])])
    ∧ data result = JString "<html>hi</html>"
    ∧ res_status result = 200.
Proof.
  apply (non_json_body_is_returned_as_text
           (X402.wrapFetchWithPayment (sample_world (free_server "<html>hi</html>")))
           parse_literal stringify_literal (wallet_with no_options)
           "https://example.org/" JNull [] []
           [EvHttp (get_request "https://example.org/" [])]
           {| status := 200; resp_headers := ∅; text := "<html>hi</html>" |});
    reflexivity.
Defined.

Lemma paid_iff_confirmation_header_witness :
  ∃ result,
    get (X402.wrapFetchWithPayment (sample_world (free_server "null")))
      parse_literal (wallet_with no_options) "https://example.org/" [] []
    = (Ok result, [EvHttp (get_request "https://example.org/" [])])
    ∧ (paid result = true
       ↔ confirms_payment {| status := 200; resp_headers := ∅; text := "null" |})
    ∧ (paid result = false
       ↔ ¬ confirms_payment {| status := 200; resp_headers := ∅; text := "null" |}).
Proof.
  apply (paid_iff_confirmation_header
           (X402.wrapFetchWithPayment (sample_world (free_server "null")))
           parse_literal stringify_literal (wallet_with no_options)
           "https://example.org/" JNull [] []
           [EvHttp (get_request "https://example.org/" [])]
           {| status := 200; resp_headers := ∅; text := "null" |});
    reflexivity.
Defined.

(** ** The balance reader *)

Lemma USDC_ADDRESSES_None (n : string) :
  USDC_ADDRESSES !! n = None ↔ n ≠ "eip155:8453" ∧ n ≠ "eip155:84532".
Proof.
  unfold USDC_ADDRESSES. split.
  - intros H. split; intros ->; by simplify_map_eq.
  - intros [H1 H2]. by simplify_map_eq.
Qed.

Lemma USDC_ADDRESSES_Some (n usdc : string) :
  USDC_ADDRESSES !! n = Some usdc → usdc ≠ "".
Proof.
  unfold USDC_ADDRESSES. intros H.
  destruct (decide (n = "eip155:8453")) as [->|]; [by simplify_map_eq|].
  destruct (decide (n = "eip155:84532")) as [->|]; by simplify_map_eq.
Qed.

(** Property reads: an own field wins, a member of [Object.prototype]
    stands in for a missing one. *)
Lemma get_property_own (obj : gmap string string) (k s : string) :
  obj !! k = Some s → Js.get_property obj k = Some (Js.Str s).
Proof. intros H. unfold Js.get_property. by rewrite H. Qed.

Lemma get_property_inherited (obj : gmap string string) (k : string) :
  obj !! k = None → k ∈ Js.prototype_members →
  Js.get_property obj k = Some (Js.Builtin k).
Proof.
  intros H Hin. unfold Js.get_property. rewrite H. by rewrite bool_decide_eq_true_2.
Qed.

Lemma get_property_None (obj : gmap string string) (k : string) :
  Js.get_property obj k = None ↔ obj !! k = None ∧ k ∉ Js.prototype_members.
Proof.
  unfold Js.get_property. destruct (obj !! k) as [s|].
  - split; [done | by intros [? _]].
  - destruct (bool_decide_reflect (k ∈ Js.prototype_members)); split; try done.
    by intros [_ ?].
Qed.

Lemma prototype_member_unlisted (n : string) :
  n ∈ Js.prototype_members → USDC_ADDRESSES !! n = None.
Proof.
  intros Hin. apply USDC_ADDRESSES_None. revert Hin. unfold Js.prototype_members.
  rewrite !elem_of_cons, elem_of_nil. intros H.
  repeat (destruct H as [->|H]; [done|]). done.
Qed.

(** On a network that is not listed and inherits nothing, [getBalance]
    fails before any read. *)
Lemma getBalance_unlisted (c : Collaborators) (w : Wallet) (t : Trace) :
  Js.get_property USDC_ADDRESSES (network w) = None →
  getBalance c w t = (Err (UnknownUsdcAddress (network w)), t).
Proof. intros H. unfold getBalance. by rewrite H. Qed.

(** C7 fails in the code: a network named after a member of
    [Object.prototype] is not listed in [USDC_ADDRESSES], yet the lookup
    finds the inherited member and the guard lets it through.
    [getBalance] then calls the chain client with that member as the
    contract address: the trace gains the [balanceOf] read, and the call
    ends as that read does, not with the unknown-address error. *)
Theorem inherited_member_reaches_the_chain (c : Collaborators) (w : Wallet)
    (t : Trace) :
  network w ∈ Js.prototype_members →
  USDC_ADDRESSES !! network w = None
  ∧ (∃ outcome rest,
       getBalance c w t
       = (outcome,
          (t ++ EvRead {| call_address := Js.Builtin (network w);
                          functionName := "balanceOf";
                          args := [address w] |} :: rest)%list))
  ∧ ∀ e,
      read_oracle c t (publicClient w)
        {| call_address := Js.Builtin (network w);
           functionName := "balanceOf";
           args := [address w] |} = Err e →
      getBalance c w t
      = (Err e,
         (t ++ [EvRead {| call_address := Js.Builtin (network w);
                          functionName := "balanceOf";
                          args := [address w] |}])%list).
Proof.
  intros Hin. pose proof (prototype_member_unlisted _ Hin) as Hmap.
  split; [done|].
  unfold getBalance. rewrite (get_property_inherited _ _ Hmap Hin).
  unfold mbind, M_bind, bind, readContract. split.
  - destruct (read_oracle c t (publicClient w) _) as [b|e].
    + destruct (read_oracle c _ (publicClient w) _) as [d|e];
        eexists _, [_]; by rewrite <- app_assoc.
    + by eexists _, [].
  - by intros e ->.
Qed.

Lemma inherited_member_reaches_the_chain_witness :
  USDC_ADDRESSES !! "constructor" = None
  ∧ getBalance (world_with_chain failing_chain)
      (wallet_with (on_network "constructor")) []
    = (Err (CollaboratorError "HTTP request failed"),
       [EvRead {| call_address := Js.Builtin "constructor";
                  functionName := "balanceOf";
                  args := ["0xFCAd0B19bB29D4674531d6f115237E16AfCE377c"] |}]).
Proof.
  destruct (inherited_member_reaches_the_chain (world_with_chain failing_chain)
              (wallet_with (on_network "constructor")) [])
    as (Hmap & _ & Hfail).
  - apply (bool_decide_unpack _). vm_compute. exact I.
  - split; [exact Hmap|]. apply Hfail. reflexivity.
Defined.

(** On a listed network [getBalance] issues [balanceOf(address)] and then
    [decimals()] against the USDC contract, and builds its answer from
    the two replies. *)
Lemma getBalance_mapped (c : Collaborators) (w : Wallet) (t : Trace)
    (usdc : string) (b d : Z) :
  USDC_ADDRESSES !! network w = Some usdc →
  read_oracle c t (publicClient w) (balanceOf_call usdc (address w)) = Ok b →
  read_oracle c (t ++ [EvRead (balanceOf_call usdc (address w))])%list
    (publicClient w) (decimals_call usdc) = Ok d →
  getBalance c w t
  = (Ok {| balance := Js.BigInt_toString b;
           formatted := Viem.formatUnits b d;
           currency := "USDC";
           bal_network := network w |},
     (t ++ [EvRead (balanceOf_call usdc (address w));
            EvRead (decimals_call usdc)])%list).
Proof.
  intros Hmap Hb Hd. unfold getBalance. rewrite (get_property_own _ _ _ Hmap).
  destruct usdc as [|a0 ar]; [by apply USDC_ADDRESSES_Some in Hmap|].
  unfold balanceOf_call, decimals_call in *.
  unfold mbind, M_bind, bind, readContract.
  rewrite Hb, Hd. unfold mret, M_ret, ret.
  by rewrite <- app_assoc.
Qed.

Example getBalance_sample :
  getBalance (sample_world (free_server "")) (wallet_with no_options) []
  = (Ok {| balance := "1234500"; formatted := "1.2345"; currency := "USDC";
           bal_network := "eip155:8453" |},
     [EvRead (balanceOf_call "0x833589fCD6eDb6E08f4c7C32D4f71b54bdA02913"
                "0xFCAd0B19bB29D4674531d6f115237E16AfCE377c");
      EvRead (decimals_call "0x833589fCD6eDb6E08f4c7C32D4f71b54bdA02913")]).
Proof. reflexivity. Qed.

(** C8.  On a listed network [getBalance] issues two chain reads against
    the USDC contract of the network: first [balanceOf] with the wallet's
    address as its one argument, then [decimals] with none, each answered
    on its own.  It returns: [balance], the decimal numeral of the raw
    balance; [formatted], a decimal numeral denoting the raw balance
    divided by [10^decimals]; [currency], the string [USDC]; [network],
    the wallet's network. *)
Theorem getBalance_reads_and_formats (c : Collaborators) (w : Wallet)
    (t : Trace) (usdc : string) (b d : Z) :
  USDC_ADDRESSES !! network w = Some usdc →
  read_oracle c t (publicClient w)
    {| call_address := Js.Str usdc;
       functionName := "balanceOf";
       args := [address w] |} = Ok b →
  read_oracle c
    (t ++ [EvRead {| call_address := Js.Str usdc;
                     functionName := "balanceOf";
                     args := [address w] |}])%list
    (publicClient w)
    {| call_address := Js.Str usdc; functionName := "decimals"; args := [] |}
  = Ok d →
  0 ≤ b → 0 ≤ d →
  ∃ result,
    getBalance c w t
    = (Ok result,
       (t ++ [EvRead {| call_address := Js.Str usdc;
                        functionName := "balanceOf";
                        args := [address w] |};
              EvRead {| call_address := Js.Str usdc;
                        functionName := "decimals";
                        args := [] |}])%list)
    ∧ balance result = Js.BigInt_toString b
    ∧ digits_value (balance result) 0 = Some b
    ∧ formatted result = Viem.formatUnits b d
    ∧ decimal_value (formatted result) = Some (Qc_of_Z b / Qc_of_Z (10 ^ d))%Qc
    ∧ currency result = "USDC"
    ∧ bal_network result = network w.
Proof.
  intros Hmap Hrb Hrd Hb Hd. eexists. split.
  { by apply (getBalance_mapped c w t usdc b d). }
  cbn. split; [done|]. split; [by apply toString_value|].
  split; [done|]. split; [by apply formatUnits_value|]. done.
Qed.

Lemma getBalance_reads_and_formats_witness :
  ∃ result,
    getBalance (sample_world (free_server "")) (wallet_with no_options) []
    = (Ok result,
       [EvRead {| call_address :=
                    Js.Str "0x833589fCD6eDb6E08f4c7C32D4f71b54bdA02913";
                  functionName := "balanceOf";
                  args := ["0xFCAd0B19bB29D4674531d6f115237E16AfCE377c"] |};
        EvRead {| call_address :=
                    Js.Str "0x833589fCD6eDb6E08f4c7C32D4f71b54bdA02913";
                  functionName := "decimals";
                  args := [] |}])
    ∧ balance result = Js.BigInt_toString 1234500
    ∧ digits_value (balance result) 0 = Some 1234500
    ∧ formatted result = Viem.formatUnits 1234500 6
    ∧ decimal_value (formatted result)
      = Some (Qc_of_Z 1234500 / Qc_of_Z (10 ^ 6))%Qc
    ∧ currency result = "USDC"
    ∧ bal_network result = "eip155:8453".
Proof.
  apply (getBalance_reads_and_formats (sample_world (free_server ""))
           (wallet_with no_options) []
           "0x833589fCD6eDb6E08f4c7C32D4f71b54bdA02913" 1234500 6);
    try reflexivity; lia.
Defined.

(** ** The payment-wrapped fetch *)

Lemma count_http_app (t1 t2 : Trace) :
  count_http (t1 ++ t2)%list = (count_http t1 + count_http t2)%nat.
Proof. unfold count_http. by rewrite List.filter_app, length_app. Qed.

Lemma count_sign_app (t1 t2 : Trace) :
  count_sign (t1 ++ t2)%list = (count_sign t1 + count_sign t2)%nat.
Proof. unfold count_sign. by rewrite List.filter_app, length_app. Qed.

Lemma wrapFetch_events (c : Collaborators) (cfg : ClientConfig) (req : Request)
    (t : Trace) :
  ∃ new, snd (X402.wrapFetchWithPayment c cfg req t) = (t ++ new)%list
         ∧ fetch_events req new.
Proof.
  unfold X402.wrapFetchWithPayment, mbind, M_bind, bind, fetch_call.
  destruct (http_oracle c t req) as [r1|e]; cbn.
  2: { exists [EvHttp req]. split; [done | constructor]. }
  destruct (status r1 =? 402); cbn.
  2: { exists [EvHttp req]. split; [done | constructor]. }
  destruct (X402.applyPolicies (policies cfg) 2 (parseRequirements c r1))
    as [|a accepted]; cbn.
  { exists [EvHttp req]. split; [done | constructor]. }
  destruct (selectRequirement c (a :: accepted)) as [selected|]; cbn.
  2: { exists [EvHttp req]. split; [done | constructor]. }
  unfold sign_call.
  destruct (sign_oracle c (t ++ [EvHttp req])%list selected) as [auth|e]; cbn.
  - exists [EvHttp req; EvSign selected; EvHttp (X402.withPayment req auth)].
    split; [by rewrite <- !app_assoc | constructor].
  - exists [EvHttp req; EvSign selected].
    split; [by rewrite <- !app_assoc | constructor].
Qed.

(** C3.  One call of the wrapped fetch extends the trace by at most two
    HTTP requests, whatever the collaborators answer; and when the
    retried request is answered 402 again, that response is the result of
    the call and the trace ends with the retry. *)
Theorem at_most_two_requests (c : Collaborators) (cfg : ClientConfig)
    (req : Request) (t : Trace) :
  (∃ new, snd (X402.wrapFetchWithPayment c cfg req t) = (t ++ new)%list
          ∧ (count_http new ≤ 2)%nat)
  ∧ ∀ r1 selected auth r2,
      http_oracle c t req = Ok r1 → status r1 = 402 →
      X402.applyPolicies (policies cfg) 2 (parseRequirements c r1) ≠ [] →
      selectRequirement c
        (X402.applyPolicies (policies cfg) 2 (parseRequirements c r1))
      = Some selected →
      sign_oracle c (t ++ [EvHttp req])%list selected = Ok auth →
      http_oracle c (t ++ [EvHttp req; EvSign selected])%list
        (X402.withPayment req auth) = Ok r2 →
      status r2 = 402 →
      X402.wrapFetchWithPayment c cfg req t
      = (Ok r2,
         (t ++ [EvHttp req; EvSign selected;
                EvHttp (X402.withPayment req auth)])%list).
Proof.
  split.
  - destruct (wrapFetch_events c cfg req t) as (new & Hnew & Hev).
    exists new. split; [done|]. destruct Hev; cbn; lia.
  - intros r1 selected auth r2 H1 Hs1 Hne Hsel Hsign H2 _.
    unfold X402.wrapFetchWithPayment, mbind, M_bind, bind, fetch_call.
    rewrite H1, Hs1. cbn.
    destruct (X402.applyPolicies (policies cfg) 2 (parseRequirements c r1))
      as [|a accepted]; [done|].
    rewrite Hsel. unfold sign_call. rewrite Hsign. cbn.
    rewrite <- !app_assoc. cbn [app]. by rewrite H2.
Qed.

Lemma at_most_two_requests_witness :
  X402.wrapFetchWithPayment (sample_world (always_402 "400000"))
    (client (wallet_with (budget 50))) (get_request "https://example.org/" []) []
  = (Ok {| status := 402; resp_headers := ∅; text := "400000" |},
     [EvHttp (get_request "https://example.org/" []);
      EvSign (offer (Some "400000") None);
      EvHttp (get_request "https://example.org/" [("X-PAYMENT", "signed")])]).
Proof.
  destruct (at_most_two_requests (sample_world (always_402 "400000"))
              (client (wallet_with (budget 50)))
              (get_request "https://example.org/" []) []) as [_ H].
  apply (H {| status := 402; resp_headers := ∅; text := "400000" |}
           (offer (Some "400000") None)
           {| auth_requirement := offer (Some "400000") None;
              auth_headers := [("X-PAYMENT", "signed")] |}
           {| status := 402; resp_headers := ∅; text := "400000" |});
    try (vm_compute; reflexivity).
  vm_compute. discriminate.
Defined.

(** C4.  When the first response is a 402 and no requirement survives
    the policies, the call fails with [PolicyRejection] after the single
    initial request: the scheme client is never asked for an
    authorization. *)
Theorem empty_policy_result_rejects (c : Collaborators) (cfg : ClientConfig)
    (req : Request) (t : Trace) (r1 : Response) :
  http_oracle c t req = Ok r1 → status r1 = 402 →
  X402.applyPolicies (policies cfg) 2 (parseRequirements c r1) = [] →
  X402.wrapFetchWithPayment c cfg req t
  = (Err PolicyRejection, (t ++ [EvHttp req])%list)
  ∧ count_sign (snd (X402.wrapFetchWithPayment c cfg req t)) = count_sign t.
Proof.
  intros H1 Hs Hempty.
  assert (Hrun : X402.wrapFetchWithPayment c cfg req t
                 = (Err PolicyRejection, (t ++ [EvHttp req])%list)).
  { unfold X402.wrapFetchWithPayment, mbind, M_bind, bind, fetch_call.
    rewrite H1, Hs. cbn. by rewrite Hempty. }
  split; [done|]. rewrite Hrun. cbn [snd]. rewrite count_sign_app. cbn. lia.
Qed.

Lemma empty_policy_result_rejects_witness :
  X402.wrapFetchWithPayment (sample_world (paywall "600000" "null"))
    (client (wallet_with (budget 50))) (get_request "https://example.org/" []) []
  = (Err PolicyRejection, [EvHttp (get_request "https://example.org/" [])])
  ∧ count_sign
      (snd (X402.wrapFetchWithPayment (sample_world (paywall "600000" "null"))
              (client (wallet_with (budget 50)))
              (get_request "https://example.org/" []) []))
    = count_sign [].
Proof.
  apply (empty_policy_result_rejects (sample_world (paywall "600000" "null"))
           (client (wallet_with (budget 50)))
           (get_request "https://example.org/" []) []
           {| status := 402; resp_headers := ∅; text := "600000" |});
    vm_compute; reflexivity.
Defined.

(** A wallet's [get] and [post] make one wrapped call each, hence at most
    two HTTP requests. *)
Lemma wallet_call_requests (c : Collaborators) (parse : string → option JSON)
    (stringify : JSON → string) (w : Wallet) (u : string) (b : JSON)
    (hs : list (string * string)) (t : Trace) :
  (∃ new, snd (get (X402.wrapFetchWithPayment c) parse w u hs t) = (t ++ new)%list
          ∧ (count_http new ≤ 2)%nat)
  ∧ (∃ new, snd (post (X402.wrapFetchWithPayment c) parse stringify w u b hs t)
            = (t ++ new)%list
            ∧ (count_http new ≤ 2)%nat).
Proof.
  split.
  - rewrite get_unfold. unfold paidFetch.
    destruct (wrapFetch_events c (client w) (get_request u hs) t)
      as (new & Hnew & Hev).
    exists new. split; [|destruct Hev; cbn; lia].
    by destruct (X402.wrapFetchWithPayment c (client w) (get_request u hs) t)
      as [[r|e] t'].
  - rewrite post_unfold. unfold paidFetch.
    destruct (wrapFetch_events c (client w) (post_request stringify u b hs) t)
      as (new & Hnew & Hev).
    exists new. split; [|destruct Hev; cbn; lia].
    by destruct (X402.wrapFetchWithPayment c (client w)
                   (post_request stringify u b hs) t) as [[r|e] t'].
Qed.

(** A resource served without a paywall is fetched with one request and
    reported as not paid. *)
Example free_resource_not_paid :
  get (X402.wrapFetchWithPayment (sample_world (free_server "true")))
    parse_literal (wallet_with (budget 50)) "https://example.org/" [] []
  = (Ok {| res_status := 200; data := JBool true; paid := false |},
     [EvHttp (get_request "https://example.org/" [])]).
Proof. vm_compute. reflexivity. Qed.

(** The two scenarios of the specification: with a budget of 50 cents an
    offer of 60 cents is rejected, an offer of 40 cents is paid. *)
Example scenario_sixty_cents :
  get (X402.wrapFetchWithPayment (sample_world (paywall "600000" "null")))
    parse_literal (wallet_with (budget 50)) "https://example.org/" [] []
  = (Err PolicyRejection, [EvHttp (get_request "https://example.org/" [])]).
Proof. vm_compute. reflexivity. Qed.

Example scenario_forty_cents :
  get (X402.wrapFetchWithPayment (sample_world (paywall "400000" "null")))
    parse_literal (wallet_with (budget 50)) "https://example.org/" [] []
  = (Ok {| res_status := 200; data := JNull; paid := true |},
     [EvHttp (get_request "https://example.org/" []);
      EvSign (offer (Some "400000") None);
      EvHttp (get_request "https://example.org/" [("X-PAYMENT", "signed")])]).
Proof. vm_compute. reflexivity. Qed.

(** * Further properties of the code *)

(** ** Key normalisation and wallet creation *)

Lemma startsWith_0x (key : string) : Js.startsWith ("0x" ++ key) "0x" = true.
Proof. unfold Js.startsWith. cbn. by destruct key. Qed.

(** X1.  Whatever the input string, the normalised key starts with [0x],
    and normalising it again changes nothing. *)
Theorem normalizeKey_canonical (key : string) :
  Js.startsWith (normalizeKey key) "0x" = true
  ∧ normalizeKey (normalizeKey key) = normalizeKey key.
Proof.
  assert (H : Js.startsWith (normalizeKey key) "0x" = true).
  { unfold normalizeKey. destruct (Js.startsWith key "0x") eqn:E; [done|].
    apply startsWith_0x. }
  split; [done|]. unfold normalizeKey at 1. by rewrite H.
Qed.

(** X2.  The prefix test is case-sensitive: a key written with [0X] is
    not recognised as prefixed, gets a second prefix, and is derived as
    the string [0x0X...]. *)
Theorem uppercase_prefix_is_doubled (pk : string → Result Account)
    (key : string) (opts : Options) :
  normalizeKey ("0X" ++ key) = "0x0X" ++ key
  ∧ createWallet pk ("0X" ++ key) opts = createWallet pk ("0x0X" ++ key) opts.
Proof.
  assert (H1 : normalizeKey ("0X" ++ key) = "0x0X" ++ key) by done.
  assert (H2 : normalizeKey ("0x0X" ++ key) = "0x0X" ++ key).
  { unfold normalizeKey. change ("0x0X" ++ key) with ("0x" ++ ("0X" ++ key)).
    by rewrite startsWith_0x. }
  split; [done|]. unfold createWallet. by rewrite H1, H2.
Qed.

(** X3.  The chain of a wallet's public client agrees with the USDC
    table: whenever the wallet's network has a USDC address, it is the
    Base mainnet pair or the Base Sepolia pair; on every other network the
    client falls back to Base mainnet. *)
Theorem chain_matches_usdc_table (pk : string → Result Account) (key : string)
    (opts : Options) (w : Wallet) :
  createWallet pk key opts = Ok w →
  (∀ usdc, USDC_ADDRESSES !! network w = Some usdc →
     (network w = "eip155:8453" ∧ chain (publicClient w) = base
      ∧ usdc = "0x833589fCD6eDb6E08f4c7C32D4f71b54bdA02913")
     ∨ (network w = "eip155:84532" ∧ chain (publicClient w) = baseSepolia
        ∧ usdc = "0x036CbD53842c5426634e7929541eC2318f3dCF7e"))
  ∧ (USDC_ADDRESSES !! network w = None → chain (publicClient w) = base).
Proof.
  unfold createWallet. destruct (pk (normalizeKey key)) as [account|]; [|done].
  intros [= <-]. cbn [network publicClient chain].
  set (n := default "eip155:8453" (opt_network opts)).
  unfold USDC_ADDRESSES. split.
  - intros usdc H.
    destruct (decide (n = "eip155:8453")) as [E|]; [rewrite E in *|].
    { left. by simplify_map_eq. }
    destruct (decide (n = "eip155:84532")) as [E|]; [rewrite E in *|].
    { right. by simplify_map_eq. }
    by simplify_map_eq.
  - intros H. destruct (String.eqb_spec n "eip155:84532") as [E|]; [|done].
    rewrite E in H. by simplify_map_eq.
Qed.

Lemma chain_matches_usdc_table_witness :
  chain (publicClient (wallet_with (on_network "eip155:84532"))) = baseSepolia
  ∧ chain (publicClient (wallet_with (on_network "eip155:1"))) = base.
Proof.
  split.
  - destruct (chain_matches_usdc_table sample_account TEST_KEY
                (on_network "eip155:84532")
                (wallet_with (on_network "eip155:84532")) eq_refl) as [H _].
    destruct (H "0x036CbD53842c5426634e7929541eC2318f3dCF7e" eq_refl)
      as [[E _]|(_ & E & _)]; [discriminate E | exact E].
  - destruct (chain_matches_usdc_table sample_account TEST_KEY
                (on_network "eip155:1")
                (wallet_with (on_network "eip155:1")) eq_refl) as [_ H].
    apply H. reflexivity.
Defined.

(** X4.  [createWalletFromEnv] reads the named variable ([X402_PRIVATE_KEY]
    when no name is given).  A non-empty value is handed to
    [createWallet]; an empty one, and an unset name that [Object.prototype]
    does not know, give the not-set error whatever the key derivation
    would do; an unset name that [Object.prototype] knows ([constructor],
    [toString], ...) passes the test and fails in [createWallet] with a
    [TypeError]. *)
Theorem createWalletFromEnv_variable (pk : string → Result Account)
    (env : gmap string string) (envVar : option string) (opts : Options) :
  (∀ key, env !! default "X402_PRIVATE_KEY" envVar = Some key → key ≠ "" →
     createWalletFromEnv pk env envVar opts = createWallet pk key opts)
  ∧ (env !! default "X402_PRIVATE_KEY" envVar = Some "" →
     createWalletFromEnv pk env envVar opts
     = Err (EnvNotSet (default "X402_PRIVATE_KEY" envVar)))
  ∧ (env !! default "X402_PRIVATE_KEY" envVar = None →
     default "X402_PRIVATE_KEY" envVar ∉ Js.prototype_members →
     createWalletFromEnv pk env envVar opts
     = Err (EnvNotSet (default "X402_PRIVATE_KEY" envVar)))
  ∧ (env !! default "X402_PRIVATE_KEY" envVar = None →
     default "X402_PRIVATE_KEY" envVar ∈ Js.prototype_members →
     createWalletFromEnv pk env envVar opts
     = Err (TypeError "privateKey.startsWith is not a function")).
Proof.
  unfold createWalletFromEnv. repeat split.
  - intros key Hkey Hne. rewrite (get_property_own _ _ _ Hkey). by destruct key.
  - intros Hkey. by rewrite (get_property_own _ _ _ Hkey).
  - intros Hkey Hnin.
    by rewrite (proj2 (get_property_None _ _) (conj Hkey Hnin)).
  - intros Hkey Hin. by rewrite (get_property_inherited _ _ Hkey Hin).
Qed.

Lemma createWalletFromEnv_variable_witness :
  createWalletFromEnv sample_account env_with_key None no_options
  = createWallet sample_account TEST_KEY no_options
  ∧ createWalletFromEnv sample_account {[ "MY_WALLET_KEY" := "" ]}
      (Some "MY_WALLET_KEY") no_options
    = Err (EnvNotSet "MY_WALLET_KEY")
  ∧ createWalletFromEnv sample_account env_with_key (Some "MY_WALLET_KEY")
      no_options
    = Err (EnvNotSet "MY_WALLET_KEY")
  ∧ createWalletFromEnv sample_account env_with_key (Some "constructor")
      no_options
    = Err (TypeError "privateKey.startsWith is not a function").
Proof.
  destruct (createWalletFromEnv_variable sample_account env_with_key None
              no_options) as (H1 & _).
  destruct (createWalletFromEnv_variable sample_account
              {[ "MY_WALLET_KEY" := "" ]} (Some "MY_WALLET_KEY") no_options)
    as (_ & H2 & _).
  destruct (createWalletFromEnv_variable sample_account env_with_key
              (Some "MY_WALLET_KEY") no_options) as (_ & _ & H3 & _).
  destruct (createWalletFromEnv_variable sample_account env_with_key
              (Some "constructor") no_options) as (_ & _ & _ & H4).
  split; [|split; [|split]].
  - apply (H1 TEST_KEY); [reflexivity | discriminate].
  - apply H2. reflexivity.
  - apply H3; [reflexivity|].
    apply (bool_decide_unpack _). vm_compute. exact I.
  - apply H4; [reflexivity|].
    apply (bool_decide_unpack _). vm_compute. exact I.
Defined.

(** ** The budget filter *)

Lemma Array_filter_sublist {A : Type} (f g : A → bool) (xs : list A) :
  (∀ x, f x = true → g x = true) →
  sublist (Js.Array_filter f xs) (Js.Array_filter g xs).
Proof.
  intros Hfg. induction xs as [|x xs IH]; cbn; [constructor|].
  destruct (f x) eqn:Ef.
  - rewrite (Hfg x Ef). by constructor.
  - destruct (g x); [by constructor | done].
Qed.

Lemma Array_filter_idem {A : Type} (f : A → bool) (xs : list A) :
  Js.Array_filter f (Js.Array_filter f xs) = Js.Array_filter f xs.
Proof.
  induction xs as [|x xs IH]; [done|]. cbn.
  destruct (f x) eqn:E; [|done]. cbn. by rewrite E, IH.
Qed.

Lemma Array_filter_all {A : Type} (f : A → bool) (xs : list A) :
  sublist (Js.Array_filter f xs) xs.
Proof.
  induction xs as [|x xs IH]; cbn; [constructor|].
  destruct (f x); by constructor.
Qed.

Lemma nonzero_is_truthy (c : Z) : c ≠ 0 → Js.truthy (Js.of_Z c) = true.
Proof.
  intros Hc. cbn. apply negb_true_iff, bool_decide_eq_false.
  by intros ?%Z2Qc_inj.
Qed.

(** X5.  Raising the budget of a wallet never loses an offer: when the
    smaller budget is truthy (not zero, so that its filter is installed),
    the offers accepted under it are a subsequence of those accepted
    under any budget at least as large, infinite or not. *)
Theorem larger_budget_accepts_more (m1 m2 : Js.number) (version : Z)
    (accepts : list PaymentRequirement) :
  Js.le m1 m2 = true → Js.truthy m1 = true →
  sublist (X402.applyPolicies (configuredPolicies m1) version accepts)
          (X402.applyPolicies (configuredPolicies m2) version accepts).
Proof.
  intros Hle Ht. unfold configuredPolicies. rewrite Ht, applyPolicies_single.
  unfold maxPaymentPolicy. destruct (Js.truthy m2).
  - rewrite applyPolicies_single. apply Array_filter_sublist. intros a.
    unfold withinBudget. intros H. by apply le_trans with m1.
  - rewrite applyPolicies_none. apply Array_filter_all.
Qed.

Lemma larger_budget_accepts_more_witness :
  sublist
    (X402.applyPolicies (configuredPolicies (Js.of_Z 50)) 2
       [offer (Some "600000") None; offer None (Some "400000")])
    (X402.applyPolicies (configuredPolicies (Js.of_Z 100)) 2
       [offer (Some "600000") None; offer None (Some "400000")]).
Proof.
  apply (larger_budget_accepts_more (Js.of_Z 50) (Js.of_Z 100) 2
           [offer (Some "600000") None; offer None (Some "400000")]);
    reflexivity.
Defined.

(** X6.  Filtering is idempotent: everything the policy returns is within
    the budget, so running the policy on its own output (for any protocol
    version) returns that output. *)
Theorem policy_idempotent (maxPayment : Js.number) (version version' : Z)
    (accepts : list PaymentRequirement) :
  Forall (λ a, withinBudget maxPayment a = true)
    (maxPaymentPolicy maxPayment version accepts)
  ∧ maxPaymentPolicy maxPayment version'
      (maxPaymentPolicy maxPayment version accepts)
    = maxPaymentPolicy maxPayment version accepts.
Proof.
  split.
  - apply Forall_forall. intros a Ha. by apply Array_filter_elem in Ha as [_ ?].
  - apply Array_filter_idem.
Qed.

(** X7.  An amount text is priced by the integer [parseInt] reads from
    it, that is by its leading numeral: for a budget of [c] cents,
    [0 < c < 2^39], an offer whose amount text reads as [n] is accepted
    exactly when [n <= 10000 * c], whatever follows the numeral. *)
Theorem amount_priced_by_leading_digits (a : PaymentRequirement) (s : string)
    (n c : Z) (version : Z) (accepts : list PaymentRequirement) :
  amount_text a s → integer_text s n → 0 < c < 2 ^ 39 →
  a ∈ X402.applyPolicies (configuredPolicies (Js.of_Z c)) version accepts
  ↔ a ∈ accepts ∧ n ≤ 10000 * c.
Proof.
  intros Hs Ht Hc. unfold configuredPolicies.
  rewrite nonzero_is_truthy by lia. rewrite applyPolicies_single.
  unfold maxPaymentPolicy. rewrite Array_filter_elem. unfold withinBudget.
  rewrite (amountCents_integer a s n Hs Ht), <- cents_of_div.
  by rewrite cents_threshold by lia.
Qed.

Lemma amount_priced_by_leading_digits_witness :
  offer (Some "1e9") None
  ∈ X402.applyPolicies (configuredPolicies (Js.of_Z 1)) 2
      [offer (Some "1e9") None]
  ↔ offer (Some "1e9") None ∈ [offer (Some "1e9") None] ∧ 1 ≤ 10000 * 1.
Proof.
  apply (amount_priced_by_leading_digits (offer (Some "1e9") None) "1e9" 1 1 2
           [offer (Some "1e9") None]).
  - apply amount_text_max; [reflexivity | discriminate].
  - apply (integer_text_plain "1" "e9" 1); [discriminate | reflexivity | reflexivity].
  - lia.
Defined.

(** X8.  A negative amount passes every non-negative budget. *)
Theorem negative_amount_always_passes (a : PaymentRequirement) (n : Z)
    (maxPayment : Qc) :
  0 ≤ n → (Qc_of_Z 0 ≤ maxPayment)%Qc →
  amountSource a = "-" ++ Js.BigInt_toString n →
  withinBudget (Js.Num maxPayment) a = true.
Proof.
  intros Hn Hm Hsrc. destruct (toString_value n Hn) as [Hv Hne].
  unfold withinBudget, amountCents.
  rewrite Hsrc, (parseInt_negative _ n Hv Hne).
  apply le_trans with (Js.of_Z 0); [apply cents_nonpos; lia|].
  cbn. by apply bool_decide_eq_true.
Qed.

Lemma negative_amount_always_passes_witness :
  withinBudget (Js.Num (Qc_of_Z 1)) (offer None (Some "-99000000")) = true.
Proof.
  apply (negative_amount_always_passes (offer None (Some "-99000000"))
           99000000 (Qc_of_Z 1)); [lia | discriminate | reflexivity].
Defined.

(** X9.  An amount text that starts with a character other than white
    space, a sign or a digit is priced at [NaN], and the offer is dropped
    by the filter of every budget that installs one, even when its other
    amount field holds a number. *)
Theorem unparsable_amount_always_rejected (a : PaymentRequirement)
    (ch : ascii) (rest : string) (maxPayment : Js.number) (version : Z)
    (accepts : list PaymentRequirement) :
  amount_text a (String ch rest) →
  starts_with_white_space (String ch rest) = false →
  Ascii.eqb ch "-" = false → Ascii.eqb ch "+" = false →
  decimal_digit ch = None →
  Js.truthy maxPayment = true →
  amountCents a = Js.NaN
  ∧ a ∉ X402.applyPolicies (configuredPolicies maxPayment) version accepts.
Proof.
  intros Hs%amount_text_spec Hw Hminus Hplus Hd Ht.
  assert (Hcents : amountCents a = Js.NaN).
  { unfold amountCents, Js.parseInt. rewrite Hs, (trim_start_none _ Hw).
    unfold Js.signed_digits. rewrite Hminus, Hplus. cbn [Js.digits_prefix].
    by rewrite <- decimal_digit_val, Hd. }
  split; [done|]. unfold configuredPolicies. rewrite Ht, applyPolicies_single.
  unfold maxPaymentPolicy. rewrite Array_filter_elem. unfold withinBudget.
  rewrite Hcents. by intros [_ ?].
Qed.

Lemma unparsable_amount_always_rejected_witness :
  amountCents (offer (Some "$1.00") (Some "100")) = Js.NaN
  ∧ offer (Some "$1.00") (Some "100")
    ∉ X402.applyPolicies (configuredPolicies (Js.of_Z 1000000)) 2
        [offer (Some "$1.00") (Some "100")].
Proof.
  apply (unparsable_amount_always_rejected (offer (Some "$1.00") (Some "100"))
           "$" "1.00" (Js.of_Z 1000000) 2 [offer (Some "$1.00") (Some "100")]);
    try reflexivity.
  apply amount_text_max; [reflexivity | discriminate].
Defined.

(** X10.  A non-empty [maxAmountRequired] decides alone: two offers with
    the same non-empty [maxAmountRequired] get the same verdict whatever
    their [amount] fields; when [maxAmountRequired] is absent or empty in
    both, equal [amount] fields give the same verdict. *)
Theorem maxAmountRequired_takes_precedence (a a' : PaymentRequirement)
    (maxPayment : Js.number) :
  (maxAmountRequired a = maxAmountRequired a' →
   falsy_str (maxAmountRequired a) = false →
   withinBudget maxPayment a = withinBudget maxPayment a')
  ∧ (falsy_str (maxAmountRequired a) = true →
     falsy_str (maxAmountRequired a') = true →
     amount a = amount a' →
     withinBudget maxPayment a = withinBudget maxPayment a').
Proof.
  unfold withinBudget, amountCents, amountSource, falsy_str. split.
  - intros <- H. by destruct (maxAmountRequired a) as [[|ch r]|].
  - intros H H' <-.
    by destruct (maxAmountRequired a) as [[|ch r]|],
                (maxAmountRequired a') as [[|ch' r']|].
Qed.

(** X11.  A negative [maxPayment] is truthy, so the filter is installed,
    and it rejects every offer whose amount is a plain non-negative
    numeral: such a wallet can pay nothing. *)
Theorem negative_budget_rejects_all (maxPayment : Qc) (version : Z)
    (accepts : list PaymentRequirement) :
  (maxPayment < Qc_of_Z 0)%Qc →
  Forall (λ a, ∃ n, 0 ≤ n ∧ amountSource a = Js.BigInt_toString n) accepts →
  configuredPolicies (Js.Num maxPayment)
  = Some [maxPaymentPolicy (Js.Num maxPayment)]
  ∧ maxPaymentPolicy (Js.Num maxPayment) version accepts = [].
Proof.
  intros Hneg Hall. split.
  - unfold configuredPolicies. cbn [Js.truthy].
    rewrite bool_decide_eq_false_2; [done|].
    intros ->. by apply Qclt_not_eq in Hneg.
  - unfold maxPaymentPolicy.
    induction accepts as [|a accepts IH]; [done|].
    apply Forall_cons in Hall as [(n & Hn & Hsrc) Hall]. cbn.
    assert (withinBudget (Js.Num maxPayment) a = false) as ->; [|by apply IH].
    unfold withinBudget. rewrite (amountCents_numeral a n Hn Hsrc).
    apply (le_above (Qc_of_Z 0)); [by apply cents_nonneg|].
    by apply Qclt_not_le.
Qed.

Lemma negative_budget_rejects_all_witness :
  configuredPolicies (Js.Num (Qc_of_Z (-1)))
  = Some [maxPaymentPolicy (Js.Num (Qc_of_Z (-1)))]
  ∧ maxPaymentPolicy (Js.Num (Qc_of_Z (-1))) 2
      [offer (Some "0") None; offer None (Some "1")] = [].
Proof.
  apply (negative_budget_rejects_all (Qc_of_Z (-1)) 2
           [offer (Some "0") None; offer None (Some "1")]); [reflexivity|].
  repeat constructor; [exists 0 | exists 1]; split; try lia; reflexivity.
Defined.

(** X12.  A wallet created without [maxPayment] pays up to one USDC and no
    more: its single policy keeps an offer whose amount is the numeral of
    [n] exactly when [n <= 1000000]. *)
Theorem default_budget_is_one_usdc (pk : string → Result Account)
    (key : string) (opts : Options) (w : Wallet) :
  createWallet pk key opts = Ok w →
  opt_maxPayment opts = None →
  ∃ policy : Policy,
    policies (client w) = Some [policy]
    ∧ ∀ version accepts a n,
        0 ≤ n → amountSource a = Js.BigInt_toString n →
        (a ∈ policy version accepts ↔ a ∈ accepts ∧ n ≤ 1000000).
Proof.
  intros Hw Hopt. exists (maxPaymentPolicy (Js.of_Z 100)). split.
  - by rewrite (createWallet_policies _ _ _ _ Hw), Hopt.
  - intros version accepts a n Hn Hsrc. unfold maxPaymentPolicy.
    rewrite Array_filter_elem. unfold withinBudget.
    rewrite (amountCents_numeral a n Hn Hsrc), (cents_threshold n 100) by lia.
    change (10000 * 100) with 1000000. reflexivity.
Qed.

Lemma default_budget_is_one_usdc_witness :
  ∃ policy : Policy,
    policies (client (wallet_with no_options)) = Some [policy]
    ∧ ∀ version accepts a n,
        0 ≤ n → amountSource a = Js.BigInt_toString n →
        (a ∈ policy version accepts ↔ a ∈ accepts ∧ n ≤ 1000000).
Proof.
  apply (default_budget_is_one_usdc sample_account TEST_KEY no_options
           (wallet_with no_options)); reflexivity.
Defined.

Lemma maxAmountRequired_takes_precedence_witness :
  withinBudget (Js.of_Z 50) (offer (Some "500000") (Some "1"))
  = withinBudget (Js.of_Z 50) (offer (Some "500000") (Some "900000")).
Proof.
  destruct (maxAmountRequired_takes_precedence
              (offer (Some "500000") (Some "1"))
              (offer (Some "500000") (Some "900000")) (Js.of_Z 50)) as [H _].
  apply H; reflexivity.
Defined.

(** ** Failures of the chain client *)

(** X13.  When the [balanceOf] read fails, [getBalance] fails with that
    very error after this single read: [decimals] is not queried. *)
Theorem balanceOf_failure_propagates (c : Collaborators) (w : Wallet)
    (t : Trace) (usdc : string) (e : Error) :
  USDC_ADDRESSES !! network w = Some usdc →
  read_oracle c t (publicClient w) (balanceOf_call usdc (address w)) = Err e →
  getBalance c w t
  = (Err e, (t ++ [EvRead (balanceOf_call usdc (address w))])%list).
Proof.
  intros Hmap Hb. unfold getBalance. rewrite (get_property_own _ _ _ Hmap).
  destruct usdc as [|a0 ar]; [by apply USDC_ADDRESSES_Some in Hmap|].
  unfold balanceOf_call in *.
  unfold mbind, M_bind, bind, readContract. by rewrite Hb.
Qed.

Lemma balanceOf_failure_propagates_witness :
  getBalance (world_with_chain failing_chain) (wallet_with no_options) []
  = (Err (CollaboratorError "HTTP request failed"),
     [EvRead (balanceOf_call "0x833589fCD6eDb6E08f4c7C32D4f71b54bdA02913"
                (address (wallet_with no_options)))]).
Proof.
  apply (balanceOf_failure_propagates (world_with_chain failing_chain)
           (wallet_with no_options) []
           "0x833589fCD6eDb6E08f4c7C32D4f71b54bdA02913"); reflexivity.
Defined.

(** X14.  When [balanceOf] succeeds and the [decimals] read fails,
    [getBalance] fails with that error after the two reads; the balance
    already read is discarded. *)
Theorem decimals_failure_propagates (c : Collaborators) (w : Wallet)
    (t : Trace) (usdc : string) (b : Z) (e : Error) :
  USDC_ADDRESSES !! network w = Some usdc →
  read_oracle c t (publicClient w) (balanceOf_call usdc (address w)) = Ok b →
  read_oracle c (t ++ [EvRead (balanceOf_call usdc (address w))])%list
    (publicClient w) (decimals_call usdc) = Err e →
  getBalance c w t
  = (Err e, (t ++ [EvRead (balanceOf_call usdc (address w));
                   EvRead (decimals_call usdc)])%list).
Proof.
  intros Hmap Hb Hd. unfold getBalance. rewrite (get_property_own _ _ _ Hmap).
  destruct usdc as [|a0 ar]; [by apply USDC_ADDRESSES_Some in Hmap|].
  unfold balanceOf_call, decimals_call in *.
  unfold mbind, M_bind, bind, readContract. rewrite Hb, Hd.
  by rewrite <- app_assoc.
Qed.

Lemma decimals_failure_propagates_witness :
  getBalance (world_with_chain failing_decimals_chain) (wallet_with no_options) []
  = (Err (CollaboratorError "HTTP request failed"),
     [EvRead (balanceOf_call "0x833589fCD6eDb6E08f4c7C32D4f71b54bdA02913"
                (address (wallet_with no_options)));
      EvRead (decimals_call "0x833589fCD6eDb6E08f4c7C32D4f71b54bdA02913")]).
Proof.
  apply (decimals_failure_propagates (world_with_chain failing_decimals_chain)
           (wallet_with no_options) []
           "0x833589fCD6eDb6E08f4c7C32D4f71b54bdA02913" 1234500); reflexivity.
Defined.

(** X15.  Whatever the chain answers, [getBalance] only reads: it adds at
    most two events to the trace, all of them chain reads against what
    [USDC_ADDRESSES[network]] evaluates to, and never an HTTP request or a
    signature. *)
Theorem getBalance_only_reads (c : Collaborators) (w : Wallet) (t : Trace) :
  ∃ new, snd (getBalance c w t) = (t ++ new)%list
         ∧ (length new ≤ 2)%nat
         ∧ Forall (λ ev, ∃ call,
                     ev = EvRead call
                     ∧ Js.get_property USDC_ADDRESSES (network w)
                       = Some (call_address call))
             new
         ∧ count_http new = 0%nat ∧ count_sign new = 0%nat.
Proof.
  assert (Hnone : ∃ new, (t : Trace) = (t ++ new)%list
            ∧ (length new ≤ 2)%nat
            ∧ Forall (λ ev, ∃ call,
                        ev = EvRead call
                        ∧ Js.get_property USDC_ADDRESSES (network w)
                          = Some (call_address call))
                new
            ∧ count_http new = 0%nat ∧ count_sign new = 0%nat).
  { exists []. rewrite app_nil_r.
    split; [done|]. split; [cbn; lia|]. split; [constructor | done]. }
  assert (Hreads : ∀ usdcAddress,
            Js.get_property USDC_ADDRESSES (network w) = Some usdcAddress →
            ∃ new,
              snd ((balance ← readContract c (publicClient w)
                      {| call_address := usdcAddress;
                         functionName := "balanceOf";
                         args := [address w] |};
                    decimals ← readContract c (publicClient w)
                      {| call_address := usdcAddress;
                         functionName := "decimals";
                         args := [] |};
                    mret {| balance := Js.BigInt_toString balance;
                            formatted := Viem.formatUnits balance decimals;
                            currency := "USDC";
                            bal_network := network w |}) t)
              = (t ++ new)%list
              ∧ (length new ≤ 2)%nat
              ∧ Forall (λ ev, ∃ call,
                          ev = EvRead call
                          ∧ Js.get_property USDC_ADDRESSES (network w)
                            = Some (call_address call))
                  new
              ∧ count_http new = 0%nat ∧ count_sign new = 0%nat).
  { intros usdcAddress Hmap. unfold mbind, M_bind, bind, readContract.
    destruct (read_oracle c t (publicClient w) _) as [b|e].
    - eexists [EvRead _; EvRead _]. split.
      { destruct (read_oracle c _ (publicClient w) _); cbn;
          by rewrite <- app_assoc. }
      split; [cbn; lia|]. split; [|done]. repeat constructor; eauto.
    - eexists [EvRead _]. split; [done|]. split; [cbn; lia|]. split; [|done].
      repeat constructor; eauto. }
  unfold getBalance.
  destruct (Js.get_property USDC_ADDRESSES (network w)) as [[[|a0 ar]|m]|] eqn:Hmap;
    [exact Hnone | by apply Hreads | by apply Hreads | exact Hnone].
Qed.

(** X29.  On a network that [USDC_ADDRESSES] does not list and whose name
    is not that of a member of [Object.prototype], [getBalance] fails with
    the unknown-address error for that network and leaves the trace as it
    was: no chain read was issued. *)
Theorem unlisted_network_fails_before_reading (c : Collaborators) (w : Wallet)
    (t : Trace) :
  USDC_ADDRESSES !! network w = None → network w ∉ Js.prototype_members →
  getBalance c w t = (Err (UnknownUsdcAddress (network w)), t).
Proof.
  intros Hmap Hnin. by apply getBalance_unlisted, get_property_None.
Qed.

Lemma unlisted_network_fails_before_reading_witness :
  getBalance (sample_world (free_server "")) (wallet_with (on_network "eip155:1")) []
  = (Err (UnknownUsdcAddress "eip155:1"), []).
Proof.
  apply (unlisted_network_fails_before_reading
           (sample_world (free_server "")) (wallet_with (on_network "eip155:1")) []).
  - reflexivity.
  - apply (bool_decide_unpack _). vm_compute. exact I.
Defined.

(** ** The convenience wrappers, continued *)

(** X16.  A failure of the wrapped fetch is the failure of [get] and of
    [post]: the same error, nothing added to the trace, no second call. *)
Theorem fetch_failure_propagates
    (wrap : ClientConfig → Request → M Response)
    (parse : string → option JSON) (stringify : JSON → string)
    (w : Wallet) (u : string) (b : JSON) (hs : list (string * string))
    (t t' : Trace) (e : Error) :
  (paidFetch wrap w (get_request u hs) t = (Err e, t') →
   get wrap parse w u hs t = (Err e, t'))
  ∧ (paidFetch wrap w (post_request stringify u b hs) t = (Err e, t') →
     post wrap parse stringify w u b hs t = (Err e, t')).
Proof.
  rewrite get_unfold, post_unfold. by split; intros ->.
Qed.

Lemma fetch_failure_propagates_witness :
  get (X402.wrapFetchWithPayment (sample_world (paywall "600000" "null")))
    parse_literal (wallet_with (budget 50)) "https://example.org/" [] []
  = (Err PolicyRejection, [EvHttp (get_request "https://example.org/" [])]).
Proof.
  destruct (fetch_failure_propagates
              (X402.wrapFetchWithPayment (sample_world (paywall "600000" "null")))
              parse_literal stringify_literal (wallet_with (budget 50))
              "https://example.org/" JNull [] []
              [EvHttp (get_request "https://example.org/" [])] PolicyRejection)
    as [H _].
  apply H. vm_compute. reflexivity.
Defined.

Lemma header_get_absent (k : string) (hs : list (string * string)) :
  k ∉ hs.*1 → header_get k hs = None.
Proof.
  induction hs as [|[k' v] hs IH]; [done|]. cbn.
  intros [Hne Hnin]%not_elem_of_cons.
  destruct (String.eqb_spec k k'); [done | by apply IH].
Qed.

Lemma set_header_get (k k' v : string) (hs : list (string * string)) :
  header_get k' (set_header k v hs)
  = if String.eqb k' k then Some v else header_get k' hs.
Proof.
  induction hs as [|[k0 v0] hs IH]; cbn.
  - by destruct (String.eqb_spec k' k).
  - destruct (String.eqb_spec k k0) as [->|Hne]; cbn.
    + by destruct (String.eqb_spec k' k0).
    + rewrite IH. destruct (String.eqb_spec k' k0) as [->|]; [|done].
      by destruct (String.eqb_spec k0 k).
Qed.

Lemma set_header_keys (k v : string) (hs : list (string * string)) :
  (set_header k v hs).*1 = if decide (k ∈ hs.*1) then hs.*1 else (hs.*1 ++ [k])%list.
Proof.
  induction hs as [|[k0 v0] hs IH]; cbn.
  - by rewrite decide_False by apply not_elem_of_nil.
  - destruct (String.eqb_spec k k0) as [->|Hne]; cbn.
    + by rewrite decide_True by apply list_elem_of_here.
    + rewrite IH. destruct (decide (k ∈ hs.*1)) as [Hin|Hnin].
      * by rewrite decide_True by by apply list_elem_of_further.
      * rewrite decide_False; [done|]. by intros [?|?]%elem_of_cons.
Qed.

Lemma set_header_NoDup (k v : string) (hs : list (string * string)) :
  NoDup hs.*1 → NoDup (set_header k v hs).*1.
Proof.
  intros Hnd. rewrite set_header_keys.
  destruct (decide (k ∈ hs.*1)); [done|].
  apply NoDup_app. split; [done|]. split; [|apply NoDup_singleton].
  intros x Hx ->%list_elem_of_singleton. done.
Qed.

Lemma spread_headers_NoDup (init extra : list (string * string)) :
  NoDup init.*1 → NoDup (spread_headers init extra).*1.
Proof.
  unfold spread_headers. revert init.
  induction extra as [|[k v] extra IH]; intros init Hnd; [done|].
  cbn. by apply IH, set_header_NoDup.
Qed.

Lemma spread_headers_get (k : string) (init extra : list (string * string)) :
  NoDup extra.*1 →
  header_get k (spread_headers init extra)
  = match header_get k extra with
    | Some v => Some v
    | None => header_get k init
    end.
Proof.
  unfold spread_headers. revert init.
  induction extra as [|[k1 v1] extra IH]; intros init Hnd; [done|].
  apply NoDup_cons in Hnd as [Hnin Hnd]. cbn in *.
  rewrite (IH _ Hnd), set_header_get.
  destruct (String.eqb_spec k k1) as [->|]; [|done].
  by rewrite (header_get_absent _ _ Hnin).
Qed.

(** X17.  The request [post] sends is a POST of [JSON.stringify(body)]
    whose header object holds every key once; it carries each of the
    caller's headers with the caller's value, and [Content-Type] is the
    caller's value when the caller gives that key and [application/json]
    otherwise. *)
Theorem post_request_headers (stringify : JSON → string) (u : string)
    (b : JSON) (hs : list (string * string)) :
  NoDup hs.*1 →
  method (post_request stringify u b hs) = "POST"
  ∧ body (post_request stringify u b hs) = Some (stringify b)
  ∧ NoDup (headers (post_request stringify u b hs)).*1
  ∧ header_get "Content-Type" (headers (post_request stringify u b hs))
    = Some (default "application/json" (header_get "Content-Type" hs))
  ∧ ∀ k v, header_get k hs = Some v →
           header_get k (headers (post_request stringify u b hs)) = Some v.
Proof.
  intros Hnd. cbn [post_request method body headers].
  split; [done|]. split; [done|]. split.
  { apply spread_headers_NoDup. cbn. apply NoDup_singleton. }
  split.
  - rewrite spread_headers_get by done.
    by destruct (header_get "Content-Type" hs).
  - intros k v Hk. rewrite spread_headers_get by done. by rewrite Hk.
Qed.

Lemma post_request_headers_witness :
  header_get "Content-Type"
    (headers (post_request stringify_literal "https://example.org/" JNull
                [("content-type", "text/plain"); ("Accept", "*/*")]))
  = Some "application/json"
  ∧ header_get "content-type"
      (headers (post_request stringify_literal "https://example.org/" JNull
                  [("content-type", "text/plain"); ("Accept", "*/*")]))
    = Some "text/plain".
Proof.
  destruct (post_request_headers stringify_literal "https://example.org/" JNull
              [("content-type", "text/plain"); ("Accept", "*/*")])
    as (_ & _ & _ & Hct & Hall).
  { apply (bool_decide_unpack _). vm_compute. exact I. }
  split; [exact Hct | by apply Hall].
Defined.

(** ** The command line *)

Section CommandLine.

Context (pk : string → Result Account) (c : Collaborators).
Context (wrap : ClientConfig → Request → M Response).
Context (parse : string → option JSON) (stringify pretty : JSON → string).
Context (syntaxMsg : string → string) (rejectionMsg typeMsg : string).

Local Abbreviation run :=
  (main pk c wrap parse stringify pretty syntaxMsg rejectionMsg typeMsg).
Local Abbreviation msg := (message rejectionMsg).

(** The options the command line passes to [createWallet]. *)
Local Abbreviation cli_options env :=
  {| opt_network := Some (Js.or_str (env !! "X402_NETWORK") "eip155:8453");
     opt_rpcUrl := None; opt_maxPayment := None |}.

Lemma falsy_str_false (o : option string) :
  falsy_str o = false ↔ ∃ s, o = Some s ∧ s ≠ "".
Proof.
  destruct o as [[|ch r]|]; cbn; split; try done.
  - by intros (s & [= <-] & ?).
  - intros _. by eexists.
  - by intros (s & ? & ?).
Qed.

Lemma command_is_true (command : option string) (name : string) :
  command_is command name = true ↔ command = Some name.
Proof.
  destruct command as [s|]; cbn; [|done].
  destruct (String.eqb_spec s name); split; congruence.
Qed.

(** With a key in the environment and a wallet derived from it, [main] is
    the dispatch on the command. *)
Lemma main_with_wallet (env : gmap string string) (argv : list string)
    (t : Trace) (key : string) (w : Wallet) :
  env !! "X402_PRIVATE_KEY" = Some key → key ≠ "" →
  createWallet pk key (cli_options env) = Ok w →
  run env argv t
  = if command_is (drop 2 argv !! 0%nat) "balance"
    then cli_balance c rejectionMsg typeMsg (Some w) t
    else if command_is (drop 2 argv !! 0%nat) "get"
    then cli_get wrap parse pretty rejectionMsg typeMsg (Some w) (drop 2 argv) t
    else if command_is (drop 2 argv !! 0%nat) "post"
    then cli_post wrap parse stringify pretty syntaxMsg rejectionMsg typeMsg
           (Some w) (drop 2 argv) t
    else (cli_help, t).
Proof.
  intros Hkey Hne Hw. unfold main. rewrite Hkey.
  destruct key as [|ch r]; [done|]. cbn [falsy_str andb].
  change (default "" (Some (String ch r))) with (String ch r).
  by rewrite Hw.
Qed.

(** X18.  Without a key in [X402_PRIVATE_KEY] (unset or empty), every
    command other than the word [help] - [--help], [-h] and no command at
    all included - prints the two lines about the missing key on standard
    error and exits with status 1, before any wallet is created and with
    no call to a collaborator. *)
Theorem missing_key_exits (env : gmap string string) (argv : list string)
    (t : Trace) :
  falsy_str (env !! "X402_PRIVATE_KEY") = true →
  drop 2 argv !! 0%nat ≠ Some "help" →
  run env argv t = (cli_missing_key, t).
Proof.
  intros Hkey Hcmd. unfold main. rewrite Hkey.
  destruct (command_is (drop 2 argv !! 0%nat) "help") eqn:E; [|done].
  by apply command_is_true in E.
Qed.

(** X19.  Without a key, [help] prints the usage text on standard output
    and exits with status 0, with no call to a collaborator. *)
Theorem help_needs_no_key (env : gmap string string) (argv : list string)
    (t : Trace) :
  falsy_str (env !! "X402_PRIVATE_KEY") = true →
  drop 2 argv !! 0%nat = Some "help" →
  run env argv t = (cli_help, t).
Proof.
  intros Hkey Hcmd. unfold main. rewrite Hkey, Hcmd. reflexivity.
Qed.

(** X20.  When the key derivation rejects the key, every command, [help]
    included, ends with the one line [Fatal: <message>] on standard error
    and status 1, with no call to a collaborator. *)
Theorem bad_key_is_fatal (env : gmap string string) (argv : list string)
    (t : Trace) (key : string) (e : Error) :
  env !! "X402_PRIVATE_KEY" = Some key → key ≠ "" →
  pk (normalizeKey key) = Err e →
  run env argv t
  = ({| printed := [(Stderr, "Fatal: " ++ msg e)]; exitCode := 1 |}, t).
Proof.
  intros Hkey Hne Hpk. unfold main. rewrite Hkey.
  destruct key as [|ch r]; [done|]. cbn [falsy_str andb].
  change (default "" (Some (String ch r))) with (String ch r).
  unfold createWallet. by rewrite Hpk.
Qed.

(** X21.  [get] without a URL and [post] without a URL or without a body
    (absent or empty) print their usage line on standard error and exit
    with status 1; no request is made. *)
Theorem missing_arguments_print_usage (env : gmap string string)
    (argv : list string) (t : Trace) (key : string) (w : Wallet) :
  env !! "X402_PRIVATE_KEY" = Some key → key ≠ "" →
  createWallet pk key (cli_options env) = Ok w →
  (drop 2 argv !! 0%nat = Some "get" →
   falsy_str (drop 2 argv !! 1%nat) = true →
   run env argv t
   = ({| printed := [(Stderr, "Usage: x402-agent get <url>")];
         exitCode := 1 |}, t))
  ∧ (drop 2 argv !! 0%nat = Some "post" →
     falsy_str (drop 2 argv !! 1%nat) = true
     ∨ falsy_str (drop 2 argv !! 2%nat) = true →
     run env argv t
     = ({| printed := [(Stderr, "Usage: x402-agent post <url> <json-body>")];
           exitCode := 1 |}, t)).
Proof.
  intros Hkey Hne Hw. rewrite (main_with_wallet _ _ _ _ _ Hkey Hne Hw). split.
  - intros -> Hurl. cbn [command_is]. cbn. unfold cli_get. by rewrite Hurl.
  - intros -> Harg. cbn. unfold cli_post.
    by destruct Harg as [-> | ->]; rewrite ?orb_true_r.
Qed.

(** X22.  [post] with a body that [JSON.parse] rejects prints
    [Error: <message>] on standard error and exits with status 1 without
    making a request. *)
Theorem post_rejects_bad_json (env : gmap string string)
    (argv : list string) (t : Trace) (key u b : string) (w : Wallet) :
  env !! "X402_PRIVATE_KEY" = Some key → key ≠ "" →
  createWallet pk key (cli_options env) = Ok w →
  drop 2 argv = ["post"; u; b] → u ≠ "" → b ≠ "" →
  parse b = None →
  run env argv t
  = ({| printed := [(Stderr, "Error: " ++ syntaxMsg b)]; exitCode := 1 |}, t).
Proof.
  intros Hkey Hne Hw Hargs Hu Hb Hparse.
  rewrite (main_with_wallet _ _ _ _ _ Hkey Hne Hw), Hargs. cbn.
  unfold cli_post. cbn.
  destruct u as [|cu ru]; [done|]. destruct b as [|cb rb]; [done|].
  cbn. by rewrite Hparse.
Qed.

(** X23.  [balance] on a network that has no USDC address, and whose name
    is not that of a member of [Object.prototype], prints
    [Error: Unknown USDC address for network <network>] on standard error
    and exits with status 1 without reading the chain. *)
Theorem balance_on_unknown_network (env : gmap string string)
    (argv : list string) (t : Trace) (key n : string) (w : Wallet) :
  env !! "X402_PRIVATE_KEY" = Some key → key ≠ "" →
  env !! "X402_NETWORK" = Some n → n ≠ "" →
  USDC_ADDRESSES !! n = None → n ∉ Js.prototype_members →
  createWallet pk key (cli_options env) = Ok w →
  drop 2 argv !! 0%nat = Some "balance" →
  run env argv t
  = ({| printed := [(Stderr, "Error: Unknown USDC address for network " ++ n)];
        exitCode := 1 |}, t).
Proof.
  intros Hkey Hne Hnet Hn Hmap Hnin Hw Hcmd.
  rewrite (main_with_wallet _ _ _ _ _ Hkey Hne Hw), Hcmd. cbn.
  assert (Hnw : network w = n).
  { revert Hw. unfold createWallet.
    destruct (pk (normalizeKey key)); [|done]. intros [= <-]. cbn.
    rewrite Hnet. by destruct n. }
  unfold cli_balance. rewrite getBalance_unlisted; [by rewrite Hnw|].
  apply get_property_None. by rewrite Hnw.
Qed.

Lemma cli_error_consistent (before : list (Stream * string)) (m : string) :
  wrote_stdout {| printed := before; exitCode := 1 |} = false →
  exit_consistent (cli_error before m).
Proof.
  intros H. right. split; [done|]. unfold wrote_stdout, cli_error in *. cbn in *.
  rewrite existsb_app, H. done.
Qed.

Lemma cli_report_consistent (before : list (Stream * string))
    (outcome : Result HttpResult * Trace) :
  wrote_stdout {| printed := before; exitCode := 1 |} = false →
  exit_consistent (fst (cli_report pretty rejectionMsg before outcome)).
Proof.
  intros H. destruct outcome as [[result|e] t']; cbn [cli_report fst].
  - left. split; [done|]. unfold wrote_stdout. cbn [printed].
    rewrite !existsb_app. cbn. by rewrite !orb_true_r.
  - by apply cli_error_consistent.
Qed.

(** X24.  Every run ends in one of two ways: status 0 with output on
    standard output, or status 1 with nothing written to standard output
    (all diagnostics go to standard error). *)
Theorem exit_status_matches_output (env : gmap string string)
    (argv : list string) (t : Trace) :
  exit_consistent (fst (run env argv t)).
Proof.
  assert (Hhelp : exit_consistent cli_help) by (by left).
  unfold main.
  destruct (falsy_str (env !! "X402_PRIVATE_KEY")
            && negb (command_is (drop 2 argv !! 0%nat) "help")).
  { by right. }
  set (created := if falsy_str (env !! "X402_PRIVATE_KEY") then _ else _).
  destruct created as [wallet|e]; [|by right].
  destruct (command_is (drop 2 argv !! 0%nat) "balance").
  { unfold cli_balance. destruct wallet as [w|].
    - destruct (getBalance c w t) as [[result|e] t']; cbn [fst].
      + by left.
      + by apply cli_error_consistent.
    - by apply cli_error_consistent. }
  destruct (command_is (drop 2 argv !! 0%nat) "get").
  { unfold cli_get. destruct (falsy_str (drop 2 argv !! 1%nat)); [by right|].
    destruct wallet as [w|].
    - by apply cli_report_consistent.
    - by apply cli_error_consistent. }
  destruct (command_is (drop 2 argv !! 0%nat) "post"); [|done].
  unfold cli_post.
  destruct (falsy_str (drop 2 argv !! 1%nat) || falsy_str (drop 2 argv !! 2%nat));
    [by right|].
  destruct (parse (default "" (drop 2 argv !! 2%nat))) as [parsed|].
  - destruct wallet as [w|].
    + by apply cli_report_consistent.
    + by apply cli_error_consistent.
  - by apply cli_error_consistent.
Qed.

(** X25.  A run depends on the environment through [X402_PRIVATE_KEY] and
    [X402_NETWORK] only, and on the command line through the command and
    its first two arguments only; in particular nothing in either can
    change the payment budget. *)
Theorem run_reads_two_variables (env env' : gmap string string)
    (argv argv' : list string) (t : Trace) :
  env !! "X402_PRIVATE_KEY" = env' !! "X402_PRIVATE_KEY" →
  env !! "X402_NETWORK" = env' !! "X402_NETWORK" →
  take 3 (drop 2 argv) = take 3 (drop 2 argv') →
  run env argv t = run env' argv' t.
Proof.
  intros Hkey Hnet Hargs.
  assert (Hi : ∀ i, (i < 3)%nat → drop 2 argv !! i = drop 2 argv' !! i).
  { intros i Hi. rewrite <- (lookup_take_lt (drop 2 argv) 3 i) by done.
    rewrite <- (lookup_take_lt (drop 2 argv') 3 i) by done. by rewrite Hargs. }
  unfold main, cli_get, cli_post.
  rewrite Hkey, Hnet, (Hi 0%nat), (Hi 1%nat), (Hi 2%nat) by lia. reflexivity.
Qed.

(** X26.  An unset or empty [X402_NETWORK] behaves exactly as
    [eip155:8453]. *)
Theorem network_defaults_to_base (env : gmap string string)
    (argv : list string) (t : Trace) :
  falsy_str (env !! "X402_NETWORK") = true →
  run env argv t = run (<["X402_NETWORK" := "eip155:8453"]> env) argv t.
Proof.
  intros Hnet. unfold main.
  rewrite lookup_insert_ne by done. rewrite lookup_insert_eq.
  by destruct (env !! "X402_NETWORK") as [[|ch r]|].
Qed.

(** X27.  A successful [get]: after the [Fetching] line, and the payment
    note when the response carries a confirmation header, a body that is
    not JSON is printed verbatim on standard output and the status is 0.
    A failed wrapped fetch is reported as [Error: <message>] after the
    [Fetching] line, with status 1. *)
Theorem get_prints_body_or_error (env : gmap string string)
    (argv : list string) (t t' : Trace) (key u : string) (w : Wallet) :
  env !! "X402_PRIVATE_KEY" = Some key → key ≠ "" →
  createWallet pk key (cli_options env) = Ok w →
  drop 2 argv !! 0%nat = Some "get" →
  drop 2 argv !! 1%nat = Some u → u ≠ "" →
  (∀ response,
     paidFetch wrap w (get_request u []) t = (Ok response, t') →
     parse (text response) = None →
     run env argv t
     = ({| printed :=
             ([(Stderr, ("Fetching " ++ u ++ "...")%string)]
              ++ (if paid (toResult parse response)
                  then [(Stderr, "(Payment was made)")] else [])
              ++ [(Stdout, text response)])%list;
           exitCode := 0 |}, t'))
  ∧ (∀ e,
       paidFetch wrap w (get_request u []) t = (Err e, t') →
       run env argv t
       = ({| printed := [(Stderr, "Fetching " ++ u ++ "...");
                         (Stderr, "Error: " ++ msg e)];
             exitCode := 1 |}, t')).
Proof.
  intros Hkey Hne Hw Hcmd Hurl Hu.
  rewrite (main_with_wallet _ _ _ _ _ Hkey Hne Hw), Hcmd. cbn.
  unfold cli_get. rewrite Hurl. destruct u as [|cu ru]; [done|].
  cbn [falsy_str]. change (default "" (Some (String cu ru))) with (String cu ru).
  rewrite get_unfold. split.
  - intros response Hfetch Hparse. rewrite Hfetch. cbn [cli_report].
    do 3 f_equal. unfold toResult. cbn [data]. by rewrite Hparse.
  - intros e Hfetch. by rewrite Hfetch.
Qed.

(** X28.  A successful [balance]: after the two chain reads the three
    lines [Address], [Network] and [Balance: <formatted> USDC] are printed
    on standard output and the status is 0. *)
Theorem balance_prints_three_lines (env : gmap string string)
    (argv : list string) (t : Trace) (key usdc : string) (w : Wallet)
    (b d : Z) :
  env !! "X402_PRIVATE_KEY" = Some key → key ≠ "" →
  createWallet pk key (cli_options env) = Ok w →
  drop 2 argv !! 0%nat = Some "balance" →
  USDC_ADDRESSES !! network w = Some usdc →
  read_oracle c t (publicClient w) (balanceOf_call usdc (address w)) = Ok b →
  read_oracle c (t ++ [EvRead (balanceOf_call usdc (address w))])%list
    (publicClient w) (decimals_call usdc) = Ok d →
  run env argv t
  = ({| printed :=
          [(Stdout, "Address: " ++ address w);
           (Stdout, "Network: " ++ network w);
           (Stdout, "Balance: " ++ Viem.formatUnits b d ++ " USDC")];
        exitCode := 0 |},
     (t ++ [EvRead (balanceOf_call usdc (address w));
            EvRead (decimals_call usdc)])%list).
Proof.
  intros Hkey Hne Hw Hcmd Hmap Hb Hd.
  rewrite (main_with_wallet _ _ _ _ _ Hkey Hne Hw), Hcmd. cbn.
  unfold cli_balance. by rewrite (getBalance_mapped c w t usdc b d Hmap Hb Hd).
Qed.

End CommandLine.

Lemma missing_key_exits_witness :
  sample_main (free_server "") ∅ (argv_of ["--help"]) [] = (cli_missing_key, []).
Proof.
  unfold sample_main. apply missing_key_exits; [reflexivity | discriminate].
Defined.

Lemma help_needs_no_key_witness :
  sample_main (free_server "") ∅ (argv_of ["help"]) [] = (cli_help, []).
Proof.
  unfold sample_main. apply help_needs_no_key; reflexivity.
Defined.

Lemma bad_key_is_fatal_witness :
  sample_main (free_server "") {[ "X402_PRIVATE_KEY" := "abc" ]}
    (argv_of ["help"]) []
  = ({| printed := [(Stderr, "Fatal: invalid private key")]; exitCode := 1 |}, []).
Proof.
  unfold sample_main.
  apply (bad_key_is_fatal sample_account (sample_world (free_server ""))
           (X402.wrapFetchWithPayment (sample_world (free_server "")))
           parse_literal stringify_literal stringify_literal
           (fun _ => "Unexpected token") "No payment option within budget"
           "Cannot read properties of null"
           {[ "X402_PRIVATE_KEY" := "abc" ]} (argv_of ["help"]) [] "abc"
           (CollaboratorError "invalid private key"));
    [reflexivity | discriminate | reflexivity].
Defined.

Lemma missing_arguments_print_usage_witness :
  sample_main (free_server "") env_with_key (argv_of ["get"]) []
  = ({| printed := [(Stderr, "Usage: x402-agent get <url>")]; exitCode := 1 |}, []).
Proof.
  unfold sample_main.
  destruct (missing_arguments_print_usage sample_account
              (sample_world (free_server ""))
              (X402.wrapFetchWithPayment (sample_world (free_server "")))
              parse_literal stringify_literal stringify_literal
              (fun _ => "Unexpected token") "No payment option within budget"
              "Cannot read properties of null"
              env_with_key (argv_of ["get"]) [] TEST_KEY
              (wallet_with (on_network "eip155:8453")))
    as [H _]; [reflexivity | discriminate | reflexivity |].
  apply H; reflexivity.
Defined.

Lemma post_rejects_bad_json_witness :
  sample_main (free_server "") env_with_key
    (argv_of ["post"; "https://example.org/"; "{oops"]) []
  = ({| printed := [(Stderr, "Error: Unexpected token")]; exitCode := 1 |}, []).
Proof.
  unfold sample_main.
  apply (post_rejects_bad_json sample_account (sample_world (free_server ""))
           (X402.wrapFetchWithPayment (sample_world (free_server "")))
           parse_literal stringify_literal stringify_literal
           (fun _ => "Unexpected token") "No payment option within budget"
           "Cannot read properties of null"
           env_with_key (argv_of ["post"; "https://example.org/"; "{oops"]) []
           TEST_KEY "https://example.org/" "{oops"
           (wallet_with (on_network "eip155:8453")));
    try reflexivity; discriminate.
Defined.

Lemma balance_on_unknown_network_witness :
  sample_main (free_server "")
    (<["X402_NETWORK" := "eip155:1"]> env_with_key) (argv_of ["balance"]) []
  = ({| printed := [(Stderr, "Error: Unknown USDC address for network eip155:1")];
        exitCode := 1 |}, []).
Proof.
  unfold sample_main.
  apply (balance_on_unknown_network sample_account (sample_world (free_server ""))
           (X402.wrapFetchWithPayment (sample_world (free_server "")))
           parse_literal stringify_literal stringify_literal
           (fun _ => "Unexpected token") "No payment option within budget"
           "Cannot read properties of null"
           (<["X402_NETWORK" := "eip155:1"]> env_with_key) (argv_of ["balance"]) []
           TEST_KEY "eip155:1" (wallet_with (on_network "eip155:1")));
    [reflexivity | discriminate | reflexivity | discriminate | reflexivity
    | apply (bool_decide_unpack _); vm_compute; exact I
    | reflexivity | reflexivity].
Defined.

Lemma run_reads_two_variables_witness :
  sample_main (paywall "400000" "null")
    (<["X402_MAX_PAYMENT" := "1"]> env_with_key)
    (argv_of ["get"; "https://example.org/"; "--max"; "1"]) []
  = sample_main (paywall "400000" "null") env_with_key
      (argv_of ["get"; "https://example.org/"; "--max"]) [].
Proof.
  unfold sample_main. apply run_reads_two_variables; reflexivity.
Defined.

Lemma network_defaults_to_base_witness :
  sample_main (free_server "") env_with_key (argv_of ["balance"]) []
  = sample_main (free_server "")
      (<["X402_NETWORK" := "eip155:8453"]> env_with_key) (argv_of ["balance"]) [].
Proof.
  unfold sample_main. apply network_defaults_to_base. reflexivity.
Defined.

Lemma get_prints_body_or_error_witness :
  sample_main (paywall "400000" "hello") env_with_key
    (argv_of ["get"; "https://example.org/"]) []
  = ({| printed := [(Stderr, "Fetching https://example.org/...");
                    (Stderr, "(Payment was made)");
                    (Stdout, "hello")];
        exitCode := 0 |},
     [EvHttp (get_request "https://example.org/" []);
      EvSign (offer (Some "400000") None);
      EvHttp (get_request "https://example.org/" [("X-PAYMENT", "signed")])]).
Proof.
  unfold sample_main.
  destruct (get_prints_body_or_error sample_account
              (sample_world (paywall "400000" "hello"))
              (X402.wrapFetchWithPayment (sample_world (paywall "400000" "hello")))
              parse_literal stringify_literal stringify_literal
              (fun _ => "Unexpected token") "No payment option within budget"
              "Cannot read properties of null"
              env_with_key (argv_of ["get"; "https://example.org/"]) []
              [EvHttp (get_request "https://example.org/" []);
               EvSign (offer (Some "400000") None);
               EvHttp (get_request "https://example.org/" [("X-PAYMENT", "signed")])]
              TEST_KEY "https://example.org/"
              (wallet_with (on_network "eip155:8453")))
    as [H _];
    [reflexivity | discriminate | reflexivity | reflexivity | reflexivity
    | discriminate |].
  assert (Hfetch :
            paidFetch
              (X402.wrapFetchWithPayment (sample_world (paywall "400000" "hello")))
              (wallet_with (on_network "eip155:8453"))
              (get_request "https://example.org/" []) []
            = (Ok {| status := 200;
                     resp_headers := {[ "payment-response" := "settled" ]};
                     text := "hello" |},
               [EvHttp (get_request "https://example.org/" []);
                EvSign (offer (Some "400000") None);
                EvHttp (get_request "https://example.org/"
                          [("X-PAYMENT", "signed")])]))
    by (vm_compute; reflexivity).
  rewrite (H _ Hfetch eq_refl).
  reflexivity.
Defined.

Lemma balance_prints_three_lines_witness :
  sample_main (free_server "") env_with_key (argv_of ["balance"]) []
  = ({| printed :=
          [(Stdout, "Address: 0xFCAd0B19bB29D4674531d6f115237E16AfCE377c");
           (Stdout, "Network: eip155:8453");
           (Stdout, "Balance: 1.2345 USDC")];
        exitCode := 0 |},
     [EvRead (balanceOf_call "0x833589fCD6eDb6E08f4c7C32D4f71b54bdA02913"
                "0xFCAd0B19bB29D4674531d6f115237E16AfCE377c");
      EvRead (decimals_call "0x833589fCD6eDb6E08f4c7C32D4f71b54bdA02913")]).
Proof.
  unfold sample_main.
  apply (balance_prints_three_lines sample_account (sample_world (free_server ""))
           (X402.wrapFetchWithPayment (sample_world (free_server "")))
           parse_literal stringify_literal stringify_literal
           (fun _ => "Unexpected token") "No payment option within budget"
           "Cannot read properties of null"
           env_with_key (argv_of ["balance"]) [] TEST_KEY
           "0x833589fCD6eDb6E08f4c7C32D4f71b54bdA02913"
           (wallet_with (on_network "eip155:8453")) 1234500 6);
    try reflexivity; discriminate.
Defined.
